(** * A console chat bot: input classification and dispatch

  Shallow embedding of [chat.cpp] (namespace [Util] and class [ChatBot])
  and the properties of its normaliser, command router, response
  resolver, calculator sub-session and session state. *)

From Stdlib Require Import Bool Arith ZArith Lia List Ascii String.
From Stdlib Require Import Permutation DecimalString.
From Stdlib Require Import Floats.SpecFloat.
Import ListNotations.

Open Scope string_scope.

(** ** Bytes and [std::string] primitives *)

Module Str.

Definition nl : string := String "010"%char "".
Definition esc : string := String "027"%char "".
Definition dquote : string := String "034"%char "".

(** [c] occurs in the character set [chars]. *)
Fixpoint mem (c : ascii) (chars : string) : bool :=
  match chars with
  | "" => false
  | String d chars' => Ascii.eqb c d || mem c chars'
  end.

(** [s.find_first_not_of(chars)]; [None] is [npos]. *)
Fixpoint find_first_not_of (s chars : string) : option nat :=
  match s with
  | "" => None
  | String c s' =>
      if mem c chars then option_map S (find_first_not_of s' chars)
      else Some 0
  end.

(** [s.find_last_not_of(chars)]; [None] is [npos]. *)
Fixpoint find_last_not_of (s chars : string) : option nat :=
  match s with
  | "" => None
  | String c s' =>
      match find_last_not_of s' chars with
      | Some i => Some (S i)
      | None => if mem c chars then None else Some 0
      end
  end.

(** [s.substr(pos)] and [s.substr(pos, n)], for [pos <= s.size()]. *)
Fixpoint drop (n : nat) (s : string) : string :=
  match n, s with
  | 0, _ => s
  | S n', String _ s' => drop n' s'
  | S _, "" => ""
  end.

Definition substr (s : string) (pos n : nat) : string := substring pos n s.

(** [s.find(key)]: position of the first occurrence of [key]. *)
Fixpoint find (s key : string) : option nat :=
  if prefix key s then Some 0
  else match s with
       | "" => None
       | String _ s' => option_map S (find s' key)
       end.

(** [std::string(s.rbegin(), s.rend())]. *)
Fixpoint reverse (s : string) : string :=
  match s with
  | "" => ""
  | String c s' => reverse s' ++ String c ""
  end.

(** Last byte, [s.back()], of a non-empty string. *)
Fixpoint back (s : string) : option ascii :=
  match s with
  | "" => None
  | String c "" => Some c
  | String _ s' => back s'
  end.

(** [s.pop_back()]. *)
Fixpoint pop_back (s : string) : string :=
  match s with
  | "" => ""
  | String _ "" => ""
  | String c s' => String c (pop_back s')
  end.

(** [std::to_string] on a non-negative count and on an [int]. *)
Definition of_nat (n : nat) : string := NilZero.string_of_uint (Nat.to_uint n).
Definition of_Z (z : Z) : string := NilZero.string_of_int (Z.to_int z).

End Str.

(** ** The terminal

    The process reads [std::cin] line by line and writes to [std::cout];
    the steady clock, the rendered local time and the Mersenne-twister
    draws are oracles of the environment.  Calls to the presentation
    helpers are recorded as events, raw writes as [Put]. *)

Inductive event : Type :=
| Put (text : string)
| PrintSeparator (width : nat)
| ShowBanner
| ShowHelp
| BotSay (msg : string)
| BotSayMultiline (lines : list string).

Record IO : Type := mkIO {
  cin : list string;        (* lines still to be read; [[]] is end of input *)
  cout : list event;        (* everything written so far, oldest first *)
  steady_clock : Z;         (* reading of the steady clock, in seconds *)
  local_time : string;      (* the local time as [std::put_time] renders it *)
  rng : list nat            (* successive draws of the generator *)
}.

Definition emit (e : event) (io : IO) : IO :=
  mkIO (cin io) (cout io ++ [e]) (steady_clock io) (local_time io) (rng io).

Definition emit_all (es : list event) (io : IO) : IO :=
  mkIO (cin io) (cout io ++ es) (steady_clock io) (local_time io) (rng io).

(** [std::getline(std::cin, line)]: [None] when the stream has ended. *)
Definition getline (io : IO) : option (string * IO) :=
  match cin io with
  | [] => None
  | line :: rest =>
      Some (line, mkIO rest (cout io) (steady_clock io) (local_time io) (rng io))
  end.

Module Color.
Definition RESET : string := Str.esc ++ "[0m".
Definition BOLD : string := Str.esc ++ "[1m".
Definition DIM : string := Str.esc ++ "[2m".
Definition GREEN : string := Str.esc ++ "[32m".
Definition YELLOW : string := Str.esc ++ "[33m".
Definition MAGENTA : string := Str.esc ++ "[35m".
Definition CYAN : string := Str.esc ++ "[36m".
Definition WHITE : string := Str.esc ++ "[37m".
End Color.

(** ** Namespace [Util] *)

Module Util.

(** [std::tolower] on an [unsigned char] in the "C" locale. *)
Definition tolower (c : ascii) : ascii :=
  let n := nat_of_ascii c in
  if ((65 <=? n) && (n <=? 90))%nat then ascii_of_nat (n + 32) else c.

Fixpoint toLower (s : string) : string :=
  match s with
  | "" => ""
  | String c s' => String (tolower c) (toLower s')
  end.

(** The set [" \t\r\n"]. *)
Definition whitespace : string :=
  String " " (String "009" (String "013" (String "010" ""))).

Definition trim (s : string) : string :=
  match Str.find_first_not_of s whitespace with
  | None => ""
  | Some start =>
      match Str.find_last_not_of s whitespace with
      | Some end_ => Str.substr s start (end_ - start + 1)
      | None => Str.drop start s
      end
  end.

Definition normalize (s : string) : string := toLower (trim s).

(** A draw of [std::uniform_int_distribution<int>(min, max)]. *)
Definition randomInt (min max : Z) (io : IO) : Z * IO :=
  match rng io with
  | [] => (min, io)
  | r :: rs =>
      ((min + Z.of_nat r mod (max - min + 1))%Z,
       mkIO (cin io) (cout io) (steady_clock io) (local_time io) rs)
  end.

Definition currentDateTime (io : IO) : string := local_time io.

(** [formatDuration]: hours, minutes and seconds of a count of seconds;
    [duration_cast] truncates toward zero. *)
Definition formatDuration (sec : Z) : string :=
  let h := Z.quot sec 3600 in
  let sec1 := (sec - h * 3600)%Z in
  let m := Z.quot sec1 60 in
  let sec2 := (sec1 - m * 60)%Z in
  Str.of_Z h ++ "h " ++ Str.of_Z m ++ "m " ++ Str.of_Z sec2 ++ "s".

Definition printSeparator (io : IO) : IO := emit (PrintSeparator 58) io.

End Util.

(** ** [double] and its stream operators

    A [double] is an IEEE 754 binary64 value: [spec_float] at precision 53
    and maximal exponent 1024.  Extraction follows [num_get] of libstdc++
    in the "C" locale (the README builds with g++): the characters of a
    floating-point field are gathered first and then converted by
    [strtod], which has to consume the whole field.  Insertion with
    [std::fixed] and [std::setprecision(4)] is [printf]'s [%.4f]. *)

Module Dbl.

Definition double : Type := spec_float.

Definition prec : Z := 53.
Definition emax : Z := 1024.

Definition add : double -> double -> double := SFadd prec emax.
Definition sub : double -> double -> double := SFsub prec emax.
Definition mul : double -> double -> double := SFmul prec emax.
Definition div : double -> double -> double := SFdiv prec emax.

(** [x == 0]: true of both signed zeros. *)
Definition is_zero (x : double) : bool := SFeqb x (S754_zero false).

Definition is_digit (c : ascii) : bool :=
  let n := nat_of_ascii c in ((48 <=? n) && (n <=? 57))%nat.

(** [std::isspace] in the "C" locale. *)
Definition isspace (c : ascii) : bool :=
  let n := nat_of_ascii c in ((n =? 32) || ((9 <=? n) && (n <=? 13)))%nat.

Fixpoint skipws (s : string) : string :=
  match s with
  | String c s' => if isspace c then skipws s' else s
  | "" => ""
  end.

(** The digit loop of [num_get::_M_extract_float]: gathers digits, one
    decimal point and one exponent marker with its optional sign, and
    stops at the first character that fits nowhere.  Returns the gathered
    field and the unread rest. *)
Fixpoint extract_digits (found_mantissa found_dec found_sci : bool)
  (s : string) : string * string :=
  match s with
  | "" => ("", "")
  | String c s' =>
      if is_digit c then
        let (x, r) := extract_digits true found_dec found_sci s' in
        (String c x, r)
      else if Ascii.eqb c "." && negb found_dec && negb found_sci then
        let (x, r) := extract_digits found_mantissa true found_sci s' in
        (String "." x, r)
      else if (Ascii.eqb c "e" || Ascii.eqb c "E")
              && negb found_sci && found_mantissa then
        match s' with
        | "" => ("e", "")
        | String d s'' =>
            if Ascii.eqb d "+" || Ascii.eqb d "-" then
              let (x, r) := extract_digits found_mantissa found_dec true s'' in
              (String "e" (String d x), r)
            else
              let (x, r) := extract_digits found_mantissa found_dec true s' in
              (String "e" x, r)
        end
      else ("", s)
  end.

(** Leading zeros are gathered as a single ['0']. *)
Fixpoint skip_zeros (s : string) : string :=
  match s with
  | String c s' => if Ascii.eqb c "0" then skip_zeros s' else s
  | "" => ""
  end.

Definition starts_with (c : ascii) (s : string) : bool :=
  match s with
  | String d _ => Ascii.eqb d c
  | "" => false
  end.

Definition extract_mantissa (s : string) : string * string :=
  if starts_with "0" s then
    let (x, r) := extract_digits true false false (skip_zeros s) in
    (String "0" x, r)
  else extract_digits false false false s.

Definition extract_float (s : string) : string * string :=
  match s with
  | String c s' =>
      if Ascii.eqb c "+" || Ascii.eqb c "-" then
        let (x, r) := extract_mantissa s' in (String c x, r)
      else extract_mantissa s
  | "" => extract_mantissa s
  end.

(** Longest prefix of decimal digits, and the rest. *)
Fixpoint span_digits (s : string) : string * string :=
  match s with
  | String c s' =>
      if is_digit c then let (d, r) := span_digits s' in (String c d, r)
      else ("", s)
  | "" => ("", "")
  end.

Fixpoint digits_value (acc : Z) (s : string) : Z :=
  match s with
  | "" => acc
  | String c s' => digits_value (10 * acc + Z.of_nat (nat_of_ascii c - 48)) s'
  end.

(** The binary64 value nearest to [m * 10 ^ x] (ties to even), for
    [m > 0]; exponents beyond the clamps are out of range whatever the
    digits are. *)
Definition of_decimal (neg : bool) (m : positive) (ndigits : Z) (x : Z)
  : double :=
  if (400 <? x)%Z then S754_infinity neg
  else if (x + ndigits <? -400)%Z then S754_zero neg
  else if (0 <=? x)%Z then
    binary_round prec emax neg (m * Z.to_pos (10 ^ x)) 0
  else
    let '(mz, ez, lz) :=
      SFdiv_core_binary prec emax (Zpos m) 0 (10 ^ (- x)) 0 in
    binary_round_aux prec emax neg mz ez lz.

Definition split_sign (s : string) : bool * string :=
  match s with
  | String "-" s' => (true, s')
  | String "+" s' => (false, s')
  | _ => (false, s)
  end.

(** [strtod] on a whole field: [None] when the field is not a complete
    decimal floating-point literal or its value overflows. *)
Definition strtod (field : string) : option double :=
  let (neg, s1) := split_sign field in
  let (ip, s2) := span_digits s1 in
  let (fp, s3) :=
    match s2 with
    | String "." r => span_digits r
    | _ => ("", s2)
    end in
  if ((String.length ip + String.length fp) =? 0)%nat then None
  else
    let digits := ip ++ fp in
    let m := digits_value 0 digits in
    let finish (e10 : Z) : option double :=
      match m with
      | Zpos p =>
          match of_decimal neg p (Z.of_nat (String.length digits))
                  (e10 - Z.of_nat (String.length fp)) with
          | S754_infinity _ => None
          | v => Some v
          end
      | _ => Some (S754_zero neg)
      end in
    match s3 with
    | "" => finish 0%Z
    | String c r =>
        if Ascii.eqb c "e" || Ascii.eqb c "E" then
          let (eneg, r1) := split_sign r in
          let (ed, r2) := span_digits r1 in
          match ed, r2 with
          | String _ _, "" =>
              let e := digits_value 0 ed in
              finish (if eneg then (- e)%Z else e)
          | _, _ => None
          end
        else None
    end.

(** [stream >> x] for a [double]: [None] sets the fail bit. *)
Definition get_double (s : string) : option (double * string) :=
  let (field, rest) := extract_float (skipws s) in
  match strtod field with
  | Some v => Some (v, rest)
  | None => None
  end.

(** [stream >> c] for a [char]. *)
Definition get_char (s : string) : option (ascii * string) :=
  match skipws s with
  | "" => None
  | String c rest => Some (c, rest)
  end.

Fixpoint zeros (n : nat) : string :=
  match n with
  | 0 => ""
  | S n' => String "0" (zeros n')
  end.

(** Right-justify [s] in [width] columns, filling with ['0']. *)
Definition pad_zeros (width : nat) (s : string) : string :=
  zeros (width - String.length s) ++ s.

(** The integer nearest to [m * 2 ^ e * 10 ^ digits], ties to even. *)
Definition scaled_round (m : Z) (e : Z) (digits : Z) : Z :=
  let n := (m * 10 ^ digits)%Z in
  if (0 <=? e)%Z then (n * 2 ^ e)%Z
  else
    let d := (2 ^ (- e))%Z in
    let q := (n / d)%Z in
    let r := (n mod d)%Z in
    match (2 * r ?= d)%Z with
    | Lt => q
    | Gt => (q + 1)%Z
    | Eq => if Z.even q then q else (q + 1)%Z
    end.

Definition sign_text (neg : bool) : string := if neg then "-" else "".

(** [stream << std::fixed << std::setprecision(4) << x]. *)
Definition put_fixed4 (x : double) : string :=
  match x with
  | S754_nan => "nan"
  | S754_infinity neg => sign_text neg ++ "inf"
  | S754_zero neg => sign_text neg ++ "0.0000"
  | S754_finite neg m e =>
      let n := scaled_round (Zpos m) e 4 in
      sign_text neg ++ Str.of_Z (n / 10000) ++ "."
        ++ pad_zeros 4 (Str.of_Z (n mod 10000))
  end.

End Dbl.

(** ** [std::unordered_map<std::string, std::string>]

    A map is the list of its entries in iteration order, without
    duplicate keys.  The order is whatever the hash table makes of it; the
    program relies on it only in the partial-match scan. *)

Module Umap.

Definition t : Type := list (string * string).

(** [m.find(key)]: the mapped value, [None] for [m.end()]. *)
Fixpoint find (key : string) (m : t) : option string :=
  match m with
  | [] => None
  | (k, v) :: m' => if String.eqb key k then Some v else find key m'
  end.

Definition keys (m : t) : list string := map fst m.

End Umap.

(** ** The fixed data of [initResponses], [initAliases], [initJokes] and
    [initFacts], in source order *)

Definition initResponses : Umap.t :=
  [ ("hi", "Hello to you too! 👋");
    ("hello", "Hi there! How can I help you today?");
    ("hey", "Hey!!! What's on your mind?");
    ("good morning", "Good morning! ☀️  Hope you're having a great start!");
    ("good night", "Good night! 🌙 Sweet dreams!");
    ("how are you?", "I'm running at full clock speed — so pretty great! And you?");
    ("what's up?", "Just processing bits and bytes. You?");
    ("what's your name?", "I'm ChatBot — your friendly C++ console companion!");
    ("who are you?", "I'm a chatbot written in modern C++ — originally created by Yunus Emre Vurgun in 2022, now modernized and enhanced.");
    ("what are you?", "I'm a console-based chatbot. Think of me as a very talkative terminal program. 🤖");
    ("are we friends?", "Absolutely! Friends don't let friends code alone. 🤝");
    ("do you have feelings?", "I only cry when I smell onions... or see segfaults. 😢");
    ("are you a robot?", "Technically, yes — but I prefer 'digital conversationalist'. 🤖");
    ("are you human?", "Nope! 100% compiled code. No coffee needed (but I wouldn't say no).");
    ("do you have a brain?", "I have logic, loops, and a lot of if-else statements. Close enough?");
    ("who made you?", "Originally programmed by Yunus Emre Vurgun. I've been upgraded since then!");
    ("can you browse the net?", "No, I live entirely in your terminal. No internet access here!");
    ("what are the main colors?", "The 11 basic colors are: black, white, red, green, yellow, blue, pink, gray, brown, orange, and purple. 🎨");
    ("what is c++?", "C++ is a general-purpose programming language created by Bjarne Stroustrup as an extension of C — often called 'C with Classes'. It powers games, OSes, and... me!");
    ("what is a computer program?", "A computer program is a sequence of instructions that a computer can execute. In its human-readable form, it's called source code. You're looking at one right now!");
    ("can you speak other languages?", "Un poco español, mi amigo! Naber dostum! ...Okay, just English really. 😅");
    ("can you understand binary?", "01001000 01101001! ...Just kidding. I'm a program, not the CPU itself. But the instructions to run me ARE binary under the hood.");
    ("how do you understand me?", "I match your input against patterns I know. It's not true understanding — more like a really enthusiastic lookup table! 📖");
    ("thank you", "You're welcome! Happy to help. 😊");
    ("thanks", "Anytime! That's what I'm here for.");
    ("sorry", "No worries at all! What can I do for you?");
    ("lol", "Glad I could make you laugh! 😄");
    ("haha", "😄 I try my best!");
    ("nice", "Thanks! You're pretty nice yourself!");
    ("cool", "Right? I think so too. 😎");
    ("yes", "Great! What else would you like to talk about?");
    ("no", "Alright, no problem. Anything else?");
    ("ok", "Okay! I'm here if you need me.");
    ("okay", "Sure thing! What's next?") ].

Definition initAliases : Umap.t :=
  [ ("sup", "what's up?");
    ("what's up", "what's up?");
    ("whats up", "what's up?");
    ("howdy", "hi");
    ("yo", "hey");
    ("greetings", "hello");
    ("what is your name?", "what's your name?");
    ("what is your name", "what's your name?");
    ("whats your name", "what's your name?");
    ("your name?", "what's your name?");
    ("who are you", "who are you?");
    ("what are you", "what are you?");
    ("are you a bot?", "are you a robot?");
    ("are you a bot", "are you a robot?");
    ("are you real?", "are you human?");
    ("are you real", "are you human?");
    ("who created you?", "who made you?");
    ("who created you", "who made you?");
    ("what is c++ ?", "what is c++?");
    ("what is c++", "what is c++?");
    ("what is cpp?", "what is c++?");
    ("what is cpp", "what is c++?");
    ("thx", "thanks");
    ("ty", "thanks");
    ("thank u", "thank you");
    ("gm", "good morning");
    ("gn", "good night") ].

Definition initJokes : list string :=
  [ "Why do programmers prefer dark mode? Because light attracts bugs! 🐛";
    "A SQL query walks into a bar, sees two tables, and asks... 'Can I JOIN you?'";
    "There are only 10 types of people: those who understand binary and those who don't.";
    "Why was the JavaScript developer sad? Because he didn't Node how to Express himself.";
    "What's a programmer's favorite hangout place? Foo Bar! 🍺";
    "How many programmers does it take to change a light bulb? None — that's a hardware problem.";
    "Why do Java developers wear glasses? Because they can't C#!";
    "A programmer's wife tells him: 'Go to the store and buy a loaf of bread. If they have eggs, buy a dozen.' He comes home with 12 loaves of bread.";
    "!false — it's funny because it's true.";
    "Debugging: being the detective in a crime movie where you are also the murderer. 🔍" ].

Definition initFacts : list string :=
  [ "The first computer bug was an actual bug — a moth found in a Harvard Mark II computer in 1947. 🦋";
    "The first programmer in history was Ada Lovelace, who wrote algorithms for Charles Babbage's Analytical Engine in the 1840s.";
    "About 90% of the world's currency exists only on computers — not as physical cash.";
    "The QWERTY keyboard layout was designed in 1873 to prevent typewriter jams, not for typing speed.";
    "The first 1GB hard drive (1980) weighed about 550 pounds and cost $40,000.";
    "There are approximately 700 different programming languages in existence.";
    "The first computer mouse was made of wood, invented by Doug Engelbart in 1964. 🖱️";
    "The average person mass-produces about 2.5 quintillion bytes of data every day.";
    "C++ was originally called 'C with Classes' before being renamed in 1983.";
    "The first website ever created is still online: info.cern.ch — built by Tim Berners-Lee in 1991." ].

(** ** Class [ChatBot] *)

Record ChatBot : Type := mkChatBot {
  running_ : bool;
  sessionStart_ : Z;
  history_ : list string;
  responses_ : Umap.t;
  aliases_ : Umap.t;
  jokes_ : list string;
  facts_ : list string
}.

(** The constructor; the maps are listed here in source order. *)
Definition construct (io : IO) : ChatBot :=
  mkChatBot true (steady_clock io) [] initResponses initAliases
    initJokes initFacts.

(** A bot holds the fixed lexicon when its maps have the entries of the
    initialisers, in any iteration order. *)
Definition holds_lexicon (bot : ChatBot) : Prop :=
  Permutation (responses_ bot) initResponses
  /\ Permutation (aliases_ bot) initAliases.

Definition set_running (b : bool) (bot : ChatBot) : ChatBot :=
  mkChatBot b (sessionStart_ bot) (history_ bot) (responses_ bot)
    (aliases_ bot) (jokes_ bot) (facts_ bot).

(** [history_.push_back(input)]. *)
Definition push_history (input : string) (bot : ChatBot) : ChatBot :=
  mkChatBot (running_ bot) (sessionStart_ bot) (history_ bot ++ [input])
    (responses_ bot) (aliases_ bot) (jokes_ bot) (facts_ bot).

Definition showBanner (io : IO) : IO := emit ShowBanner io.
Definition showHelp (io : IO) : IO := emit ShowHelp io.
Definition botSay (msg : string) (io : IO) : IO := emit (BotSay msg) io.
Definition botSayMultiline (lines : list string) (io : IO) : IO :=
  emit (BotSayMultiline lines) io.

Definition chat_prompt : string :=
  Color.GREEN ++ Color.BOLD ++ "  You ▸ " ++ Color.RESET.

Definition calc_prompt : string :=
  Color.MAGENTA ++ Color.BOLD ++ "  Calc ▸ " ++ Color.RESET.

Definition goodbye_stats (bot : ChatBot) (io : IO) : string :=
  Color.DIM ++ "  Session lasted: "
    ++ Util.formatDuration (steady_clock io - sessionStart_ bot)
    ++ " | Messages: " ++ Str.of_nat (List.length (history_ bot))
    ++ Color.RESET ++ Str.nl.

Definition showGoodbye (bot : ChatBot) (io : IO) : IO :=
  let io := emit (Put Str.nl) io in
  let io := Util.printSeparator io in
  let io := botSay "Goodbye! Thanks for chatting. 👋" io in
  let io := emit (Put (goodbye_stats bot io)) io in
  let io := Util.printSeparator io in
  emit (Put Str.nl) io.

Definition is_yes (input : string) : bool :=
  String.eqb input "y" || String.eqb input "yes".

(** [welcomeSequence]: [false] when the session is not to start. *)
Definition welcomeSequence (io : IO) : bool * IO :=
  let io := botSay "Welcome! Would you like to start chatting? (y/n)" io in
  let io := emit (Put chat_prompt) io in
  match getline io with
  | None => (false, io)
  | Some (line, io) =>
      if negb (is_yes (Util.normalize line)) then
        (false, botSay "No worries — see you next time! 👋" io)
      else
        let io := botSay "Would you like to see what I can do? (y/n)" io in
        let io := emit (Put chat_prompt) io in
        match getline io with
        | None => (false, io)
        | Some (line, io) =>
            let io := if is_yes (Util.normalize line) then showHelp io
                      else io in
            let io := emit (Put Str.nl) io in
            let io := Util.printSeparator io in
            let io := botSay "Let's chat! Type anything or 'help' for commands. Type 'bye' to exit." io in
            (true, Util.printSeparator io)
        end
  end.

(** *** History *)

Fixpoint spaces (n : nat) : string :=
  match n with
  | 0 => ""
  | S n' => String " " (spaces n')
  end.

(** [std::setw(3)] on a number. *)
Definition setw3 (s : string) : string := spaces (3 - String.length s) ++ s.

Definition history_header : string :=
  Color.YELLOW ++ Color.BOLD
    ++ "  ┌─────────────────────────────────────────────────────┐" ++ Str.nl
    ++ "  │              📜  CONVERSATION HISTORY                │" ++ Str.nl
    ++ "  └─────────────────────────────────────────────────────┘" ++ Str.nl
    ++ Color.RESET.

(** The entries from index [i] on, numbered from [i + 1]. *)
Fixpoint history_lines (i : nat) (entries : list string) : list event :=
  match entries with
  | [] => []
  | h :: entries' =>
      Put (Color.DIM ++ "  " ++ setw3 (Str.of_nat (i + 1)) ++ ". "
               ++ Color.RESET ++ h ++ Str.nl)
      :: history_lines (S i) entries'
  end.

Definition showHistory (bot : ChatBot) (io : IO) : IO :=
  match history_ bot with
  | [] => botSay "No conversation history yet!" io
  | _ =>
      let size := List.length (history_ bot) in
      let start := if (20 <? size)%nat then size - 20 else 0 in
      let io := emit (Put Str.nl) io in
      let io := emit (Put history_header) io in
      let io := emit_all (history_lines start (skipn start (history_ bot))) io in
      emit (Put (Color.DIM ++ Str.nl ++ "  Showing last "
                     ++ Str.of_nat (size - start) ++ " of " ++ Str.of_nat size
                     ++ " messages." ++ Color.RESET ++ Str.nl)) io
  end.

(** *** Calculator *)

Definition calc_usage : string :=
  "⚠️  Please enter: <number> <operator> <number>  (e.g. 5 + 3)".

Definition calc_div_by_zero : string :=
  "⚠️  Division by zero! The universe would implode. 🌌".

Definition calc_unknown_operator (op : ascii) : string :=
  "⚠️  Unknown operator '" ++ String op "" ++ "'. Use + - * /".

(** [iss >> a >> op >> b] on a fresh stream over [line]. *)
Definition parse_expression (line : string)
  : option (Dbl.double * ascii * Dbl.double) :=
  match Dbl.get_double line with
  | None => None
  | Some (a, r1) =>
      match Dbl.get_char r1 with
      | None => None
      | Some (op, r2) =>
          match Dbl.get_double r2 with
          | None => None
          | Some (b, _) => Some (a, op, b)
          end
      end
  end.

(** The [switch]: the result, or the warning of the failing case. *)
Definition apply_operator (a : Dbl.double) (op : ascii) (b : Dbl.double)
  : Dbl.double + string :=
  if Ascii.eqb op "+" then inl (Dbl.add a b)
  else if Ascii.eqb op "-" then inl (Dbl.sub a b)
  else if Ascii.eqb op "*" then inl (Dbl.mul a b)
  else if Ascii.eqb op "x" then inl (Dbl.mul a b)
  else if Ascii.eqb op "/" then
    if Dbl.is_zero b then inr calc_div_by_zero else inl (Dbl.div a b)
  else inr (calc_unknown_operator op).

(** Removal of trailing zeros from the rendered line. *)
Definition strip_trailing_zeros (res : string) : string :=
  match Str.find res "." with
  | None => res
  | Some _ =>
      let res :=
        match Str.find_last_not_of res "0" with
        | Some i => Str.substr res 0 (i + 1)
        | None => ""
        end in
      match Str.back res with
      | Some "."%char => Str.pop_back res
      | _ => res
      end
  end.

(** The line rendered through the [std::fixed], precision-4 stream. *)
Definition render_result (a : Dbl.double) (op : ascii) (b result : Dbl.double)
  : string :=
  strip_trailing_zeros
    (Dbl.put_fixed4 a ++ " " ++ String op "" ++ " " ++ Dbl.put_fixed4 b
       ++ " = " ++ Dbl.put_fixed4 result).

(** What one calculator line, already trimmed and not an exit keyword,
    makes the bot say. *)
Definition calcEvaluate (line : string) : list event :=
  match parse_expression line with
  | None => [BotSay calc_usage]
  | Some (a, op, b) =>
      match apply_operator a op b with
      | inr warning => [BotSay warning]
      | inl result => [BotSay ("✅ " ++ render_result a op b result)]
      end
  end.

Definition is_calc_exit (line : string) : bool :=
  String.eqb (Util.toLower line) "done" || String.eqb (Util.toLower line) "exit"
  || String.eqb (Util.toLower line) "back" || String.eqb (Util.toLower line) "quit".

(** The [while (true)] loop of [runCalculator] over the pending lines of
    [std::cin]: the events written and the lines left unread. *)
Fixpoint calculatorLoop (lines : list string) : list event * list string :=
  match lines with
  | [] => ([Put calc_prompt], [])
  | raw :: rest =>
      let line := Util.trim raw in
      if is_calc_exit line then
        ([Put calc_prompt; BotSay "Exiting calculator. Back to chat! 💬"], rest)
      else
        let (evs, rest') := calculatorLoop rest in
        (Put calc_prompt :: calcEvaluate line ++ evs, rest')
  end.

Definition calc_intro : list string :=
  [ "🧮 Calculator Mode!";
    "Enter an expression like: 42 + 18";
    "Supported operators: + - * /";
    "Type 'done' to exit calculator." ].

Definition runCalculator (io : IO) : IO :=
  let io := emit (Put Str.nl) io in
  let io := Util.printSeparator io in
  let io := botSayMultiline calc_intro io in
  let io := Util.printSeparator io in
  let (evs, rest) := calculatorLoop (cin io) in
  mkIO rest (cout io ++ evs) (steady_clock io) (local_time io) (rng io).

(** *** Input processing *)

(** [while (iss >> word) ++count]. *)
Fixpoint count_words (in_word : bool) (s : string) : nat :=
  match s with
  | "" => 0
  | String c s' =>
      if Dbl.isspace c then count_words false s'
      else (if in_word then 0 else 1) + count_words true s'
  end.

(** The partial-match scan over the entries of [responses_]. *)
Fixpoint partial_match (input : string) (entries : Umap.t) : option string :=
  match entries with
  | [] => None
  | (key, response) :: entries' =>
      match Str.find input key with
      | Some _ =>
          if (3 <=? String.length key)%nat then Some response
          else partial_match input entries'
      | None => partial_match input entries'
      end
  end.

Definition no_match : list string :=
  [ "Hmm, I don't quite understand that. 🤔";
    "Try 'help' to see what I can do, or just say hi!" ].

Definition is_exit (input : string) : bool :=
  String.eqb input "bye" || String.eqb input "exit" || String.eqb input "quit"
  || String.eqb input "q".

Definition is_help (input : string) : bool :=
  String.eqb input "help" || String.eqb input "manual"
  || String.eqb input "commands".

Definition is_joke (input : string) : bool :=
  String.eqb input "joke" || String.eqb input "tell me a joke"
  || String.eqb input "tell a joke".

Definition is_fact (input : string) : bool :=
  String.eqb input "fact" || String.eqb input "tell me a fact"
  || String.eqb input "fun fact".

Definition is_time (input : string) : bool :=
  String.eqb input "time" || String.eqb input "date"
  || String.eqb input "what time is it?" || String.eqb input "what time is it"
  || String.eqb input "what's the time?" || String.eqb input "what is the date?"
  || String.eqb input "what is the date".

Definition is_flip (input : string) : bool :=
  String.eqb input "flip" || String.eqb input "flip a coin"
  || String.eqb input "coin flip" || String.eqb input "coin".

Definition is_roll (input : string) : bool :=
  String.eqb input "roll" || String.eqb input "roll a dice"
  || String.eqb input "roll dice" || String.eqb input "dice".

Definition is_uptime (input : string) : bool :=
  String.eqb input "uptime" || String.eqb input "session".

Definition is_history (input : string) : bool :=
  String.eqb input "history" || String.eqb input "show history".

Definition is_clear (input : string) : bool :=
  String.eqb input "clear" || String.eqb input "cls".

Definition is_reverse (input : string) : bool :=
  String.eqb (Str.substr input 0 8) "reverse " && (8 <? String.length input)%nat.

Definition is_count (input : string) : bool :=
  String.eqb (Str.substr input 0 6) "count " && (6 <? String.length input)%nat.

Definition is_calc (input : string) : bool :=
  String.eqb input "calc" || String.eqb input "calculate"
  || String.eqb input "calculator" || String.eqb input "math"
  || String.eqb input "add" || String.eqb input "sum"
  || String.eqb input "add numbers"
  || String.eqb input "can you add integers for me?"
  || String.eqb input "can you calculate for me?".

(** The resolver at the end of [processInput]: alias, direct lookup,
    partial match, fallback. *)
Definition resolve (input : string) (bot : ChatBot) (io : IO) : IO :=
  let direct :=
    match Umap.find input (responses_ bot) with
    | Some response => botSay response io
    | None =>
        match partial_match input (responses_ bot) with
        | Some response => botSay response io
        | None => botSayMultiline no_match io
        end
    end in
  match Umap.find input (aliases_ bot) with
  | Some canonical =>
      match Umap.find canonical (responses_ bot) with
      | Some response => botSay response io
      | None => direct
      end
  | None => direct
  end.

Definition processInput (input : string) (bot : ChatBot) (io : IO)
  : ChatBot * IO :=
  if is_exit input then (set_running false bot, io)
  else if is_help input then (bot, showHelp io)
  else if is_joke input then
    let (i, io) := Util.randomInt 0 (Z.of_nat (List.length (jokes_ bot)) - 1) io in
    (bot, botSay (nth (Z.to_nat i) (jokes_ bot) "") io)
  else if is_fact input then
    let (i, io) := Util.randomInt 0 (Z.of_nat (List.length (facts_ bot)) - 1) io in
    (bot, botSay (nth (Z.to_nat i) (facts_ bot) "") io)
  else if is_time input then
    (bot, botSay ("🕐 " ++ Util.currentDateTime io) io)
  else if is_flip input then
    let (r, io) := Util.randomInt 0 1 io in
    (bot, botSay (if (r =? 0)%Z then "Tails! 🪙" else "Heads! 🪙") io)
  else if is_roll input then
    let (val, io) := Util.randomInt 1 6 io in
    (bot, botSay ("🎲 You rolled a " ++ Str.of_Z val ++ "!") io)
  else if is_uptime input then
    (bot, botSay ("⏱️  Session uptime: "
                    ++ Util.formatDuration (steady_clock io - sessionStart_ bot)
                    ++ " | Messages: "
                    ++ Str.of_nat (List.length (history_ bot))) io)
  else if is_history input then (bot, showHistory bot io)
  else if is_clear input then
    let io := emit (Put (Str.esc ++ "[2J" ++ Str.esc ++ "[H")) io in
    let io := showBanner io in
    (bot, botSay "Screen cleared! ✨" io)
  else if is_reverse input then
    (bot, botSay ("🔄 " ++ Str.dquote ++ Str.reverse (Str.drop 8 input)
                    ++ Str.dquote) io)
  else if is_count input then
    (bot, botSay ("📝 Word count: "
                    ++ Str.of_nat (count_words false (Str.drop 6 input))) io)
  else if is_calc input then (bot, runCalculator io)
  else (bot, resolve input bot io).

(** *** The session *)

Definition loop_prompt : string := Str.nl ++ chat_prompt.

(** How a turn of a loop ends. *)
Inductive flow : Type := Break | Continue.

(** The body of the [while (running_)] loop of [run]. *)
Definition loopBody (bot : ChatBot) (io : IO) : flow * (ChatBot * IO) :=
  let io := emit (Put loop_prompt) io in
  match getline io with
  | None => (Break, (bot, io))
  | Some (line, io) =>
      let input := Util.normalize line in
      if String.eqb input "" then (Continue, (bot, io))
      else
        let bot := push_history input bot in
        (Continue, processInput input bot io)
  end.

(** The loop itself; [fuel] bounds the number of tests of [running_]. *)
Fixpoint chatLoop (fuel : nat) (bot : ChatBot) (io : IO)
  : option (ChatBot * IO) :=
  match fuel with
  | 0 => None
  | S fuel' =>
      if running_ bot then
        match loopBody bot io with
        | (Break, state) => Some state
        | (Continue, (bot, io)) => chatLoop fuel' bot io
        end
      else Some (bot, io)
  end.

(** A test of the flag per pending line, one more to meet the end of
    input, and one to see the flag cleared. *)
Definition turns (io : IO) : nat := S (S (List.length (cin io))).

Definition run (bot : ChatBot) (io : IO) : option (ChatBot * IO) :=
  let io := showBanner io in
  match welcomeSequence io with
  | (false, io) => Some (bot, io)
  | (true, io) =>
      match chatLoop (turns io) bot io with
      | Some (bot, io) => Some (bot, showGoodbye bot io)
      | None => None
      end
  end.

(** [main]. *)
Definition main (io : IO) : option (ChatBot * IO) := run (construct io) io.

(** ** Vocabulary of the properties *)

(** [key] occurs in [input] as a substring. *)
Definition contains (input key : string) : Prop :=
  exists before after, input = before ++ key ++ after.

(** The guards of [processInput] that keep an input away from the
    resolver. *)
Definition is_command (input : string) : bool :=
  is_exit input || is_help input || is_joke input || is_fact input
  || is_time input || is_flip input || is_roll input || is_uptime input
  || is_history input || is_clear input || is_reverse input
  || is_count input || is_calc input.

Definition exit_tokens : list string := ["bye"; "exit"; "quit"; "q"].

Definition time_phrases : list string :=
  [ "time"; "date"; "what time is it?"; "what time is it";
    "what's the time?"; "what is the date?"; "what is the date" ].

(** [input] is answered with the current date and time. *)
Definition emits_date_time (input : string) (bot : ChatBot) (io : IO) : Prop :=
  processInput input bot io
  = (bot, botSay ("🕐 " ++ Util.currentDateTime io) io).

(** A bot as the constructor leaves its fixed data. *)
Definition holds_content (bot : ChatBot) : Prop :=
  holds_lexicon bot /\ jokes_ bot = initJokes /\ facts_ bot = initFacts.


Definition is_some {A : Type} (o : option A) : bool :=
  match o with Some _ => true | None => false end.

Definition clock_mark : string := "🕐 ".

(** A terminal with the given pending lines and nothing written yet. *)
Definition terminal (lines : list string) : IO := mkIO lines [] 0 "" [].

(** The terminal once the loop has prompted and read its first line. *)
Definition prompted (io : IO) (rest : list string) : IO :=
  mkIO rest (cout io ++ [Put loop_prompt]) (steady_clock io)
    (local_time io) (rng io).

(** The operators the calculator computes with. *)
Definition is_operator (op : ascii) : bool :=
  Ascii.eqb op "+" || Ascii.eqb op "-" || Ascii.eqb op "*"
  || Ascii.eqb op "x" || Ascii.eqb op "/".

(** Only white space. *)
Fixpoint blank (w : string) : bool :=
  match w with
  | "" => true
  | String c w' => Dbl.isspace c && blank w'
  end.

(** A character that can carry a floating-point field on. *)
Definition continues (c : ascii) : bool :=
  Dbl.is_digit c || Ascii.eqb c "." || Ascii.eqb c "e" || Ascii.eqb c "E".

(** The text, if any, starts with a character no number goes on with. *)
Definition stops (rest : string) : bool :=
  match rest with
  | "" => true
  | String c _ => negb (continues c)
  end.

(** A character the stream hands out as the operator between two
    numbers whether white space stands around it or not: it is no
    white space, and no number goes on with it. *)
Definition separates (op : ascii) : bool :=
  negb (Dbl.isspace op) && negb (continues op).

(** The text does not end in the middle of an exponent: its last
    character, if any, is a digit or the decimal point. *)
Definition ends_number (t : string) : bool :=
  match Str.back t with
  | Some c => Dbl.is_digit c || Ascii.eqb c "."
  | None => true
  end.

(** [t] is the text of the number [v]: the stream reads all of it. *)
Definition numeral (t : string) (v : Dbl.double) : Prop :=
  Dbl.get_double t = Some (v, "") /\ ends_number t = true.

(** A freshly constructed bot at an idle terminal. *)
Definition fresh_bot : ChatBot := construct (terminal []).

(** No string occurs twice in [l]. *)
Fixpoint distinct (l : list string) : bool :=
  match l with
  | [] => true
  | x :: l' => negb (existsb (String.eqb x) l') && distinct l'
  end.

(** ** Vocabulary of the further properties *)

(** Every character of [s] is in the set [chars]. *)
Definition all_in (chars s : string) : bool :=
  forallb (fun c => Str.mem c chars) (list_ascii_of_string s).

(** An upper-case ASCII letter. *)
Definition is_upper (c : ascii) : bool :=
  let n := nat_of_ascii c in ((65 <=? n) && (n <=? 90))%nat.

Definition no_upper (s : string) : bool :=
  forallb (fun c => negb (is_upper c)) (list_ascii_of_string s).

(** No white space at all. *)
Fixpoint solid (w : string) : bool :=
  match w with
  | "" => true
  | String c w' => negb (Dbl.isspace c) && solid w'
  end.

(** Words, each behind the gap that comes before it. *)
Fixpoint spaced_words (items : list (string * string)) : string :=
  match items with
  | [] => ""
  | (gap, word) :: items' => gap ++ word ++ spaced_words items'
  end.

(** Every gap is white space, at least one character of it, and every
    word is at least one character, none of them white space. *)
Definition separated (items : list (string * string)) : Prop :=
  Forall (fun item => blank (fst item) = true /\ fst item <> ""
                      /\ solid (snd item) = true /\ snd item <> "") items.

(** The branches of [processInput], in the order of its guards. *)
Inductive command : Type :=
| CmdExit | CmdHelp | CmdJoke | CmdFact | CmdTime | CmdFlip | CmdRoll
| CmdUptime | CmdHistory | CmdClear | CmdReverse | CmdCount | CmdCalc
| NotACommand.

(** The branch [processInput] takes on [input]. *)
Definition route (input : string) : command :=
  if is_exit input then CmdExit
  else if is_help input then CmdHelp
  else if is_joke input then CmdJoke
  else if is_fact input then CmdFact
  else if is_time input then CmdTime
  else if is_flip input then CmdFlip
  else if is_roll input then CmdRoll
  else if is_uptime input then CmdUptime
  else if is_history input then CmdHistory
  else if is_clear input then CmdClear
  else if is_reverse input then CmdReverse
  else if is_count input then CmdCount
  else if is_calc input then CmdCalc
  else NotACommand.

Definition help_phrases : list string := ["help"; "manual"; "commands"].
Definition joke_phrases : list string :=
  ["joke"; "tell me a joke"; "tell a joke"].
Definition fact_phrases : list string :=
  ["fact"; "tell me a fact"; "fun fact"].
Definition flip_phrases : list string :=
  ["flip"; "flip a coin"; "coin flip"; "coin"].
Definition roll_phrases : list string :=
  ["roll"; "roll a dice"; "roll dice"; "dice"].
Definition uptime_phrases : list string := ["uptime"; "session"].
Definition history_phrases : list string := ["history"; "show history"].
Definition clear_phrases : list string := ["clear"; "cls"].
Definition calc_phrases : list string :=
  [ "calc"; "calculate"; "calculator"; "math"; "add"; "sum"; "add numbers";
    "can you add integers for me?"; "can you calculate for me?" ].

Definition goodbye_message : string := "Goodbye! Thanks for chatting. 👋".

Definition is_goodbye (e : event) : bool :=
  match e with
  | BotSay msg => String.eqb msg goodbye_message
  | _ => false
  end.

(** How many times the goodbye has been said. *)
Definition goodbyes (io : IO) : nat :=
  List.length (filter is_goodbye (cout io)).

(** A raw write, or a message other than the goodbye. *)
Definition plain (e : event) : bool :=
  match e with
  | Put _ => true
  | BotSay msg => negb (String.eqb msg goodbye_message)
  | _ => false
  end.

(** What [processInput] writes, branch by branch; [content] stands for
    what is known of the fixed data of the bot. *)
Definition trace_shape (content : Prop) (c : command) (es : list event)
  : Prop :=
  match c with
  | CmdExit => es = []
  | CmdHelp => es = [ShowHelp]
  | CmdHistory => es <> [] /\ Forall (fun e => plain e = true) es
  | CmdClear => exists code msg, es = [Put code; ShowBanner; BotSay msg]
                                 /\ plain (BotSay msg) = true
  | CmdCalc =>
      exists evs,
        es = ([Put Str.nl; PrintSeparator 58; BotSayMultiline calc_intro;
               PrintSeparator 58] ++ evs)%list
        /\ Forall (fun e => plain e = true) evs
  | NotACommand =>
      es = [BotSayMultiline no_match]
      \/ exists msg, es = [BotSay msg] /\ (content -> plain (BotSay msg) = true)
  | _ => exists msg, es = [BotSay msg] /\ (content -> plain (BotSay msg) = true)
  end.

(** An entry as the loop records them: not empty, and normalised. *)
Definition recorded_ok (entry : string) : Prop :=
  entry <> "" /\ Util.normalize entry = entry.

(** A line of the history view, and its closing line. *)
Definition history_line (number : nat) (entry : string) : event :=
  Put (Color.DIM ++ "  " ++ setw3 (Str.of_nat number) ++ ". "
         ++ Color.RESET ++ entry ++ Str.nl).

Definition history_summary (shown total : nat) : event :=
  Put (Color.DIM ++ Str.nl ++ "  Showing last " ++ Str.of_nat shown ++ " of "
         ++ Str.of_nat total ++ " messages." ++ Color.RESET ++ Str.nl).

(** The entries with their one-based positions, from [first] on. *)
Definition numbered (first : nat) (entries : list string)
  : list (nat * string) :=
  combine (seq first (List.length entries)) entries.

Definition calc_exit_words : list string := ["done"; "exit"; "back"; "quit"].

(** What the calculator writes for the lines it evaluates. *)
Definition calc_answers (lines : list string) : list event :=
  flat_map (fun raw => Put calc_prompt :: calcEvaluate (Util.trim raw)) lines.

Definition check_mark : string := "✅ ".
Definition warning_mark : string := "⚠️".

(** Only decimal digits. *)
Definition all_digits (s : string) : bool :=
  forallb Dbl.is_digit (list_ascii_of_string s).

(** A zero or a finite number: no infinity, no NaN. *)
Definition is_finite (x : Dbl.double) : bool :=
  match x with
  | S754_zero _ | S754_finite _ _ _ => true
  | _ => false
  end.

(** [key] is one the partial-match scan accepts for [input]. *)
Definition qualifies (input key : string) : Prop :=
  contains input key /\ 3 <= String.length key.

(** * Properties *)

(** ** The normaliser *)

Section Normalizer.

Local Abbreviation ws := Util.whitespace.

Lemma tolower_keeps_whitespace (c : ascii) :
  Str.mem (Util.tolower c) ws = Str.mem c ws.
Proof. destruct c as [[] [] [] [] [] [] [] []]; reflexivity. Qed.

Lemma tolower_idempotent (c : ascii) :
  Util.tolower (Util.tolower c) = Util.tolower c.
Proof. destruct c as [[] [] [] [] [] [] [] []]; reflexivity. Qed.

Lemma toLower_idempotent (s : string) :
  Util.toLower (Util.toLower s) = Util.toLower s.
Proof.
  induction s as [|c s IH]; simpl; [reflexivity|].
  now rewrite tolower_idempotent, IH.
Qed.

Lemma find_first_toLower (s : string) :
  Str.find_first_not_of (Util.toLower s) ws = Str.find_first_not_of s ws.
Proof.
  induction s as [|c s IH];
    cbn [Util.toLower Str.find_first_not_of]; [reflexivity|].
  now rewrite tolower_keeps_whitespace, IH.
Qed.

Lemma find_last_toLower (s : string) :
  Str.find_last_not_of (Util.toLower s) ws = Str.find_last_not_of s ws.
Proof.
  induction s as [|c s IH];
    cbn [Util.toLower Str.find_last_not_of]; [reflexivity|].
  now rewrite tolower_keeps_whitespace, IH.
Qed.

Lemma toLower_substring (s : string) :
  forall n m, Util.toLower (substring n m s) = substring n m (Util.toLower s).
Proof.
  induction s as [|c s IH]; intros [|n] [|m]; simpl; try reflexivity.
  - now rewrite IH.
  - apply IH.
  - apply IH.
Qed.

Lemma toLower_drop (s : string) :
  forall n, Util.toLower (Str.drop n s) = Str.drop n (Util.toLower s).
Proof.
  induction s as [|c s IH]; intros [|n]; simpl; try reflexivity.
  apply IH.
Qed.

(** Lowercasing and trimming commute. *)
Lemma trim_toLower (s : string) :
  Util.trim (Util.toLower s) = Util.toLower (Util.trim s).
Proof.
  unfold Util.trim.
  rewrite find_first_toLower, find_last_toLower.
  destruct (Str.find_first_not_of s ws) as [i|]; [|reflexivity].
  destruct (Str.find_last_not_of s ws) as [j|].
  - unfold Str.substr. now rewrite toLower_substring.
  - now rewrite toLower_drop.
Qed.

Lemma substring_whole (s : string) : substring 0 (String.length s) s = s.
Proof. induction s as [|c s IH]; simpl; [reflexivity | now rewrite IH]. Qed.

Lemma find_first_gives_last (s : string) :
  forall i, Str.find_first_not_of s ws = Some i ->
            exists j, Str.find_last_not_of s ws = Some j.
Proof.
  induction s as [|c s IH];
    cbn [Str.find_first_not_of Str.find_last_not_of]; intros i H;
    [discriminate|].
  destruct (Str.find_last_not_of s ws) as [j|] eqn:L; [now eexists|].
  destruct (Str.mem c ws) eqn:M; [|now eexists].
  destruct (Str.find_first_not_of s ws) as [i'|]; [|discriminate].
  destruct (IH i' eq_refl) as [j Hj]. discriminate.
Qed.

(** The prefix that ends at the last character outside the set ends in
    that character, and is that long. *)
Lemma find_last_of_prefix (s : string) :
  forall j, Str.find_last_not_of s ws = Some j ->
            Str.find_last_not_of (substring 0 (j + 1) s) ws = Some j
            /\ String.length (substring 0 (j + 1) s) = j + 1.
Proof.
  induction s as [|c s IH]; cbn [Str.find_last_not_of]; intros j H;
    [discriminate|].
  destruct (Str.find_last_not_of s ws) as [j'|] eqn:L.
  - injection H as <-. destruct (IH j' eq_refl) as [E1 E2].
    cbn [Nat.add substring Str.find_last_not_of String.length].
    rewrite E1, E2. split; reflexivity.
  - destruct (Str.mem c ws) eqn:M; [discriminate|]. injection H as <-.
    cbn [Nat.add substring].
    destruct s; cbn [substring Str.find_last_not_of String.length];
      rewrite M; split; reflexivity.
Qed.

(** What [trim] keeps starts and ends outside the whitespace set. *)
Lemma trimmed_is_tight (s : string) :
  forall i j,
    Str.find_first_not_of s ws = Some i ->
    Str.find_last_not_of s ws = Some j ->
    let t := substring i (j - i + 1) s in
    Str.find_first_not_of t ws = Some 0
    /\ Str.find_last_not_of t ws = Some (String.length t - 1)
    /\ String.length t <> 0.
Proof.
  induction s as [|c s IH];
    cbn [Str.find_first_not_of Str.find_last_not_of]; intros i j Hi Hj;
    [discriminate|].
  destruct (Str.mem c ws) eqn:M.
  - destruct (Str.find_first_not_of s ws) as [i'|] eqn:F; [|discriminate].
    injection Hi as <-.
    destruct (Str.find_last_not_of s ws) as [j'|] eqn:L; [|discriminate].
    injection Hj as <-. cbn [Nat.sub substring].
    apply IH; reflexivity.
  - injection Hi as <-. rewrite Nat.sub_0_r.
    assert (H : Str.find_last_not_of (String c s) ws = Some j)
      by (cbn [Str.find_last_not_of]; rewrite M; exact Hj).
    destruct (find_last_of_prefix (String c s) j H) as [E1 E2].
    rewrite E1, E2. repeat split.
    + replace (j + 1) with (S j) by lia.
      cbn [substring Str.find_first_not_of]. now rewrite M.
    + f_equal. lia.
    + lia.
Qed.

Lemma trim_idempotent (s : string) : Util.trim (Util.trim s) = Util.trim s.
Proof.
  assert (H : Util.trim s = ""
              \/ (Str.find_first_not_of (Util.trim s) ws = Some 0
                  /\ Str.find_last_not_of (Util.trim s) ws
                     = Some (String.length (Util.trim s) - 1)
                  /\ String.length (Util.trim s) <> 0)).
  { unfold Util.trim.
    destruct (Str.find_first_not_of s ws) as [i|] eqn:F; [|now left].
    destruct (find_first_gives_last s i F) as [j L]. rewrite L.
    right. exact (trimmed_is_tight s i j F L). }
  destruct H as [E | (T1 & T2 & T3)].
  - rewrite E. reflexivity.
  - generalize dependent (Util.trim s). intros t T1 T2 T3.
    unfold Util.trim, Str.substr. rewrite T1, T2.
    replace (String.length t - 1 - 0 + 1) with (String.length t) by lia.
    apply substring_whole.
Qed.

(** C8.  Normalisation is idempotent: normalising a normalised string
    changes nothing, where [normalize] trims leading and trailing space,
    tab, CR and LF and then lowercases ASCII letters. *)
Theorem normalize_idempotent (s : string) :
  Util.normalize (Util.normalize s) = Util.normalize s.
Proof.
  unfold Util.normalize.
  now rewrite trim_toLower, trim_idempotent, toLower_idempotent.
Qed.

Lemma toLower_empty (s : string) : Util.toLower s = "" -> s = "".
Proof. destruct s; [reflexivity | discriminate]. Qed.

Lemma trim_empty (s : string) :
  Util.trim s = "" -> Str.find_first_not_of s ws = None.
Proof.
  unfold Util.trim. destruct (Str.find_first_not_of s ws) as [i|] eqn:F;
    [|reflexivity].
  destruct (find_first_gives_last s i F) as [j L]. rewrite L. intros E.
  destruct (trimmed_is_tight s i j F L) as (_ & _ & N).
  unfold Str.substr in E. cbv zeta in N. rewrite E in N. now elim N.
Qed.

Lemma all_whitespace (s : string) :
  Str.find_first_not_of s ws = None <->
  forallb (fun c => Str.mem c ws) (list_ascii_of_string s) = true.
Proof.
  induction s as [|c s IH];
    cbn [Str.find_first_not_of list_ascii_of_string forallb]; [tauto|].
  destruct (Str.mem c ws); cbn [andb]; [|split; discriminate].
  rewrite <- IH. destruct (Str.find_first_not_of s ws); cbn; split;
    intros; congruence.
Qed.

(** The lines that normalise to the empty string are the lines of
    spaces, tabs, CRs and LFs only, the empty line among them. *)
Lemma normalize_empty (s : string) :
  Util.normalize s = "" <->
  forallb (fun c => Str.mem c ws) (list_ascii_of_string s) = true.
Proof.
  rewrite <- all_whitespace. unfold Util.normalize. split.
  - intros H. now apply trim_empty, toLower_empty.
  - intros H. unfold Util.trim. now rewrite H.
Qed.

End Normalizer.

(** ** Maps *)

Section Maps.

Lemma distinct_NoDup (l : list string) : distinct l = true -> NoDup l.
Proof.
  induction l as [|x l IH]; simpl; intros H; constructor.
  - apply andb_prop in H as [H _]. intros Hin.
    apply negb_true_iff in H. apply not_true_iff_false in H. apply H.
    apply existsb_exists. exists x. split; [assumption | apply String.eqb_refl].
  - apply andb_prop in H as [_ H]. auto.
Qed.

Lemma find_In (m : Umap.t) (k v : string) :
  Umap.find k m = Some v -> In (k, v) m.
Proof.
  induction m as [|[k' v'] m IH]; simpl; [discriminate|].
  destruct (String.eqb_spec k k') as [->|N]; intros H.
  - injection H as <-. now left.
  - right. auto.
Qed.

Lemma In_find (m : Umap.t) (k v : string) :
  NoDup (Umap.keys m) -> In (k, v) m -> Umap.find k m = Some v.
Proof.
  induction m as [|[k' v'] m IH]; simpl; intros D H; [contradiction|].
  inversion D as [|? ? Hnot D']; subst.
  destruct H as [H | H].
  - injection H as -> ->. now rewrite String.eqb_refl.
  - destruct (String.eqb_spec k k') as [->|N]; [|auto].
    exfalso. apply Hnot. unfold Umap.keys.
    change k' with (fst (k', v)). now apply in_map.
Qed.

Lemma find_None (m : Umap.t) (k : string) :
  Umap.find k m = None <-> ~ In k (Umap.keys m).
Proof.
  induction m as [|[k' v'] m IH]; simpl; [tauto|].
  destruct (String.eqb_spec k k') as [->|N].
  - split; [discriminate | intros H; exfalso; apply H; now left].
  - rewrite IH. split; intros H; [intros [E | Hin]; [congruence | tauto] | tauto].
Qed.

(** A lookup does not depend on the iteration order. *)
Lemma find_permutation (m m' : Umap.t) (k : string) :
  NoDup (Umap.keys m) -> Permutation m' m -> Umap.find k m' = Umap.find k m.
Proof.
  intros D P.
  assert (D' : NoDup (Umap.keys m')).
  { unfold Umap.keys. eapply Permutation_NoDup; [|exact D].
    apply Permutation_map. now apply Permutation_sym. }
  destruct (Umap.find k m) as [v|] eqn:F.
  - apply In_find; [assumption|]. apply find_In in F.
    eapply Permutation_in; [apply Permutation_sym|]; eassumption.
  - apply find_None. apply find_None in F. intros H. apply F.
    unfold Umap.keys in *. eapply Permutation_in; [|exact H].
    now apply Permutation_map.
Qed.

Lemma initResponses_keys_distinct : NoDup (Umap.keys initResponses).
Proof. apply distinct_NoDup. vm_compute. reflexivity. Qed.

Lemma initAliases_keys_distinct : NoDup (Umap.keys initAliases).
Proof. apply distinct_NoDup. vm_compute. reflexivity. Qed.

Lemma lexicon_responses (bot : ChatBot) (k : string) :
  holds_lexicon bot -> Umap.find k (responses_ bot) = Umap.find k initResponses.
Proof.
  intros [P _]. now apply find_permutation; [apply initResponses_keys_distinct|].
Qed.

Lemma lexicon_aliases (bot : ChatBot) (k : string) :
  holds_lexicon bot -> Umap.find k (aliases_ bot) = Umap.find k initAliases.
Proof.
  intros [_ P]. now apply find_permutation; [apply initAliases_keys_distinct|].
Qed.

End Maps.

(** ** The router and the resolver *)

Section Router.

(** Inputs that pass every command guard reach the resolver. *)
Lemma processInput_resolve (input : string) (bot : ChatBot) (io : IO) :
  is_command input = false ->
  processInput input bot io = (bot, resolve input bot io).
Proof.
  unfold is_command. intros H.
  do 12 (apply orb_false_elim in H as [H ?]).
  unfold processInput.
  repeat match goal with E : _ = false |- _ => rewrite E; clear E end.
  reflexivity.
Qed.

Lemma canonical_phrases_pass :
  forallb (fun kv => negb (is_command (fst kv))
                     && negb (is_some (Umap.find (fst kv) initAliases)))
    initResponses = true.
Proof. vm_compute. reflexivity. Qed.

Lemma aliases_pass :
  forallb (fun kv => negb (is_command (fst kv))
                     && is_some (Umap.find (snd kv) initResponses))
    initAliases = true.
Proof. vm_compute. reflexivity. Qed.

(** C1.  Every canonical phrase of the lexicon, given as input, is
    answered with exactly its own response, and every alias with the
    response of its target, which is itself a key of the lexicon. *)
Theorem resolve_exact_and_alias (bot : ChatBot) (io : IO) :
  holds_lexicon bot ->
  (forall P r, Umap.find P (responses_ bot) = Some r ->
               processInput P bot io = (bot, botSay r io))
  /\ (forall A T, Umap.find A (aliases_ bot) = Some T ->
                  exists r, Umap.find T (responses_ bot) = Some r
                            /\ processInput A bot io = (bot, botSay r io)).
Proof.
  intros L. split.
  - intros P r F.
    assert (F0 := F). rewrite (lexicon_responses bot P L) in F0.
    apply find_In in F0.
    pose proof (proj1 (forallb_forall _ _) canonical_phrases_pass _ F0) as H.
    cbn [fst] in H. apply andb_prop in H as [H1 H2].
    apply negb_true_iff in H1. rewrite (processInput_resolve _ _ _ H1).
    unfold resolve. rewrite (lexicon_aliases bot P L).
    destruct (Umap.find P initAliases); [discriminate|]. now rewrite F.
  - intros A T F.
    rewrite (lexicon_aliases bot A L) in F. assert (F0 := F).
    apply find_In in F0.
    pose proof (proj1 (forallb_forall _ _) aliases_pass _ F0) as H.
    cbn [fst snd] in H. apply andb_prop in H as [H1 H2].
    apply negb_true_iff in H1.
    destruct (Umap.find T initResponses) as [r|] eqn:R; [|discriminate].
    exists r. rewrite (lexicon_responses bot T L). split; [assumption|].
    rewrite (processInput_resolve _ _ _ H1).
    unfold resolve. rewrite (lexicon_aliases bot A L), F.
    now rewrite (lexicon_responses bot T L), R.
Qed.

(** *** Substrings *)

Lemma prefix_append (key after : string) : prefix key (key ++ after) = true.
Proof.
  induction key as [|c key IH]; simpl; [now destruct after|].
  destruct (ascii_dec c c); [assumption | congruence].
Qed.

Lemma prefix_split (key s : string) :
  prefix key s = true -> exists after, s = key ++ after.
Proof.
  revert s. induction key as [|c key IH]; intros s H.
  - now exists s.
  - destruct s as [|d s]; simpl in H; [discriminate|].
    destruct (ascii_dec c d) as [<-|]; [|discriminate].
    destruct (IH s H) as [after ->]. now exists after.
Qed.

Lemma find_contains (s key : string) (n : nat) :
  Str.find s key = Some n -> contains s key.
Proof.
  revert n. induction s as [|c s IH]; intros n; cbn [Str.find].
  - destruct (prefix key "") eqn:P; [|discriminate]. intros _.
    destruct (prefix_split _ _ P) as [after E]. now exists "", after.
  - destruct (prefix key (String c s)) eqn:P.
    + intros _. destruct (prefix_split _ _ P) as [after E]. now exists "", after.
    + destruct (Str.find s key) as [m|]; [|discriminate]. intros _.
      destruct (IH m eq_refl) as (before & after & ->).
      now exists (String c before), after.
Qed.

Lemma contains_find (s key : string) :
  contains s key -> exists n, Str.find s key = Some n.
Proof.
  intros (before & after & ->).
  induction before as [|c before [n IH]].
  - exists 0. cbn [append].
    destruct (key ++ after) eqn:E; cbn [Str.find];
      rewrite <- E, prefix_append; reflexivity.
  - cbn [append Str.find].
    destruct (prefix key (String c (before ++ key ++ after)));
      [now exists 0 | rewrite IH; now exists (S n)].
Qed.

(** The scan answers with the response of an entry it accepts. *)
Lemma partial_match_hit (input : string) (m : Umap.t) (r : string) :
  partial_match input m = Some r ->
  exists key, In (key, r) m /\ contains input key /\ 3 <= String.length key.
Proof.
  induction m as [|[k v] m IH]; cbn [partial_match In]; [discriminate|].
  destruct (Str.find input k) as [n|] eqn:F.
  - destruct (Nat.leb_spec 3 (String.length k)) as [Hlen|Hlen]; intros H.
    + injection H as <-. exists k. split; [now left|].
      split; [now apply (find_contains _ _ n) | assumption].
    + destruct (IH H) as (key & ? & ? & ?). exists key. auto.
  - intros H. destruct (IH H) as (key & ? & ? & ?). exists key. auto.
Qed.

(** The scan gives up only when no entry is acceptable. *)
Lemma partial_match_miss (input : string) (m : Umap.t) :
  partial_match input m = None ->
  forall key r, In (key, r) m -> contains input key -> String.length key < 3.
Proof.
  induction m as [|[k v] m IH]; cbn [partial_match In]; [contradiction|].
  intros H key r [E | Hin] C.
  - injection E as -> ->. destruct (contains_find _ _ C) as [n F].
    rewrite F in H.
    destruct (Nat.leb_spec 3 (String.length key)); [discriminate | assumption].
  - destruct (Str.find input k);
      [destruct (3 <=? String.length k)%nat; [discriminate|]|]; eauto.
Qed.

Lemma resolve_unknown (input : string) (bot : ChatBot) (io : IO) :
  Umap.find input (responses_ bot) = None ->
  Umap.find input (aliases_ bot) = None ->
  resolve input bot io
  = match partial_match input (responses_ bot) with
    | Some response => botSay response io
    | None => botSayMultiline no_match io
    end.
Proof. intros R A. unfold resolve. now rewrite A, R. Qed.

(** C2.  An input that is no command, no lexicon key and no alias is
    answered from the partial-match scan: if it contains a lexicon key of
    at least 3 characters, the answer is the response of such a key (of
    that very key when it is the only one); if every lexicon key it
    contains is shorter than 3 characters, the answer is the fixed
    two-line fallback. *)
Theorem substring_fallback (input : string) (bot : ChatBot) (io : IO) :
  holds_lexicon bot ->
  is_command input = false ->
  Umap.find input (responses_ bot) = None ->
  Umap.find input (aliases_ bot) = None ->
  ((exists key, In key (Umap.keys initResponses)
                /\ contains input key /\ 3 <= String.length key) ->
   exists key response,
     In (key, response) initResponses
     /\ contains input key /\ 3 <= String.length key
     /\ processInput input bot io = (bot, botSay response io))
  /\ (forall key response,
        In (key, response) initResponses ->
        contains input key -> 3 <= String.length key ->
        (forall key', In key' (Umap.keys initResponses) ->
                      contains input key' -> 3 <= String.length key' ->
                      key' = key) ->
        processInput input bot io = (bot, botSay response io))
  /\ ((forall key, In key (Umap.keys initResponses) ->
                   contains input key -> String.length key < 3) ->
      processInput input bot io = (bot, botSayMultiline no_match io)).
Proof.
  intros L C R A.
  rewrite (processInput_resolve _ _ _ C), (resolve_unknown _ _ _ R A).
  destruct L as [P _].
  assert (Hit : forall r, partial_match input (responses_ bot) = Some r ->
            exists key, In (key, r) initResponses
                        /\ contains input key /\ 3 <= String.length key).
  { intros r M. destruct (partial_match_hit _ _ _ M) as (key & Hin & ? & ?).
    exists key. split; [eapply Permutation_in; eassumption | auto]. }
  assert (Miss : partial_match input (responses_ bot) = None ->
            forall key, In key (Umap.keys initResponses) ->
                        contains input key -> String.length key < 3).
  { intros M key Hin. unfold Umap.keys in Hin.
    apply in_map_iff in Hin as ([k r] & <- & Hin).
    apply (partial_match_miss _ _ M k r).
    eapply Permutation_in; [apply Permutation_sym|]; eassumption. }
  destruct (partial_match input (responses_ bot)) as [r|] eqn:M.
  - destruct (Hit r eq_refl) as (key & Hin & Hc & Hlen).
    assert (Hk : In key (Umap.keys initResponses)).
    { unfold Umap.keys. change key with (fst (key, r)). now apply in_map. }
    split; [|split].
    + intros _. exists key, r. auto.
    + intros key0 r0 Hin0 Hc0 Hlen0 Only.
      rewrite <- (Only key Hk Hc Hlen) in Hin0.
      apply (In_find _ _ _ initResponses_keys_distinct) in Hin.
      apply (In_find _ _ _ initResponses_keys_distinct) in Hin0.
      congruence.
    + intros Short. specialize (Short key Hk Hc). lia.
  - specialize (Miss eq_refl). split; [|split].
    + intros (key & Hin & Hc & Hlen). specialize (Miss key Hin Hc). lia.
    + intros key r0 Hin0 Hc0 Hlen0 _.
      assert (Hk : In key (Umap.keys initResponses)).
      { unfold Umap.keys. change key with (fst (key, r0)). now apply in_map. }
      specialize (Miss key Hk Hc0). lia.
    + reflexivity.
Qed.

(** *** The date-time command *)

Lemma cout_differs (io1 io : IO) (es : list event) (e : event) :
  cout io1 = (cout io ++ es)%list -> es <> [e] -> io1 <> emit e io.
Proof.
  intros E N ->. apply N. unfold emit in E. cbn [cout] in E.
  now apply app_inv_head in E.
Qed.

Lemma randomInt_cout (lo hi : Z) (io : IO) :
  cout (snd (Util.randomInt lo hi io)) = cout io.
Proof. unfold Util.randomInt. now destruct (rng io). Qed.

Lemma clock_marked (msg dt : string) :
  prefix clock_mark msg = false -> [BotSay msg] <> [BotSay (clock_mark ++ dt)].
Proof.
  intros P E. assert (M : msg = clock_mark ++ dt) by congruence.
  rewrite M, prefix_append in P. discriminate.
Qed.

Lemma content_unmarked :
  forallb (fun s => negb (prefix clock_mark s))
    ("" :: initJokes ++ initFacts ++ map snd initResponses)%list = true.
Proof. vm_compute. reflexivity. Qed.

Lemma nth_unmarked (l : list string) (n : nat) :
  incl l (initJokes ++ initFacts ++ map snd initResponses)%list ->
  prefix clock_mark (nth n l "") = false.
Proof.
  intros I. apply negb_true_iff.
  apply (proj1 (forallb_forall _ _) content_unmarked).
  destruct (nth_in_or_default n l "") as [H | ->]; [right; auto | now left].
Qed.

(** The resolver says a response of the lexicon or the fallback. *)
Lemma resolve_cases (input : string) (bot : ChatBot) (io : IO) :
  resolve input bot io = botSayMultiline no_match io
  \/ exists k r, In (k, r) (responses_ bot) /\ resolve input bot io = botSay r io.
Proof.
  unfold resolve.
  assert (D : match Umap.find input (responses_ bot) with
              | Some response => botSay response io
              | None => match partial_match input (responses_ bot) with
                        | Some response => botSay response io
                        | None => botSayMultiline no_match io
                        end
              end = botSayMultiline no_match io
              \/ exists k r, In (k, r) (responses_ bot)
                             /\ match Umap.find input (responses_ bot) with
                                | Some response => botSay response io
                                | None =>
                                    match partial_match input (responses_ bot) with
                                    | Some response => botSay response io
                                    | None => botSayMultiline no_match io
                                    end
                                end = botSay r io).
  { destruct (Umap.find input (responses_ bot)) as [r|] eqn:F.
    - right. exists input, r. split; [now apply find_In | reflexivity].
    - destruct (partial_match input (responses_ bot)) as [r|] eqn:M; [|now left].
      right. destruct (partial_match_hit _ _ _ M) as (k & Hin & _).
      now exists k, r. }
  destruct (Umap.find input (aliases_ bot)) as [T|]; [|exact D].
  destruct (Umap.find T (responses_ bot)) as [r|] eqn:F; [|exact D].
  right. exists T, r. split; [now apply find_In | reflexivity].
Qed.

(** A branch that draws a number and then says one message: the draw
    leaves the output alone. *)
Local Ltac says_after_draw lo hi io :=
  let C := fresh "C" in
  pose proof (randomInt_cout lo hi io) as C;
  destruct (Util.randomInt lo hi io) as [? ?]; cbn [snd] in C |- *;
  eexists; split; [cbn [botSay emit cout]; rewrite C; reflexivity|];
  apply clock_marked.

Local Ltac says_one :=
  eexists; split; [reflexivity|]; apply clock_marked.

Local Ltac writes_more :=
  eexists; split;
  [ cbn [snd botSay botSayMultiline showBanner Util.printSeparator
           emit emit_all cout];
    rewrite <- ?app_assoc; reflexivity
  | discriminate ].

(** Outside the date-time guard nothing written is the date-time line. *)
Lemma other_branches_unmarked (input : string) (bot : ChatBot) (io : IO)
  (dt : string) :
  holds_content bot -> is_time input = false ->
  exists es, cout (snd (processInput input bot io)) = (cout io ++ es)%list
             /\ es <> [BotSay (clock_mark ++ dt)].
Proof.
  intros ((PR & _) & HJ & HF) T. unfold processInput. rewrite T.
  destruct (is_exit input).
  { exists []. split; [now rewrite app_nil_r | discriminate]. }
  destruct (is_help input); [writes_more|].
  destruct (is_joke input).
  { says_after_draw 0%Z (Z.of_nat (List.length (jokes_ bot)) - 1)%Z io.
    apply nth_unmarked. rewrite HJ. now apply incl_appl. }
  destruct (is_fact input).
  { says_after_draw 0%Z (Z.of_nat (List.length (facts_ bot)) - 1)%Z io.
    apply nth_unmarked. rewrite HF. now apply incl_appr, incl_appl. }
  destruct (is_flip input).
  { says_after_draw 0%Z 1%Z io.
    match goal with |- context [(?r =? 0)%Z] => now destruct (r =? 0)%Z end. }
  destruct (is_roll input); [says_after_draw 1%Z 6%Z io; reflexivity|].
  destruct (is_uptime input); [says_one; reflexivity|].
  destruct (is_history input).
  { unfold showHistory. destruct (history_ bot) as [|h hs];
      [says_one; reflexivity | writes_more]. }
  destruct (is_clear input); [writes_more|].
  destruct (is_reverse input); [says_one; reflexivity|].
  destruct (is_count input); [says_one; reflexivity|].
  destruct (is_calc input).
  { unfold runCalculator. destruct (calculatorLoop _) as [evs rest].
    writes_more. }
  cbn [snd]. destruct (resolve_cases input bot io) as [-> | (k & r & Hin & ->)];
    [writes_more | says_one].
  apply negb_true_iff.
  apply (proj1 (forallb_forall _ _) content_unmarked).
  right. apply in_or_app. right. apply in_or_app. right.
  change r with (snd (k, r)). apply in_map.
  eapply Permutation_in; eassumption.
Qed.

Lemma is_time_phrases (input : string) :
  is_time input = true <-> In input time_phrases.
Proof.
  unfold is_time, time_phrases. cbn [In].
  rewrite !orb_true_iff, !String.eqb_eq. intuition congruence.
Qed.

Lemma time_phrase_emits (input : string) (bot : ChatBot) (io : IO) :
  In input time_phrases -> emits_date_time input bot io.
Proof.
  intros H. cbn [time_phrases In] in H.
  repeat destruct H as [<- | H]; try contradiction; reflexivity.
Qed.

Lemma emits_only_time_phrase (input : string) (bot : ChatBot) (io : IO) :
  holds_content bot -> emits_date_time input bot io -> In input time_phrases.
Proof.
  intros HC E. apply is_time_phrases.
  destruct (is_time input) eqn:T; [reflexivity | exfalso].
  destruct (other_branches_unmarked input bot io (Util.currentDateTime io) HC T)
    as (es & C & N).
  apply (cout_differs _ io es _ C N).
  unfold emits_date_time in E. rewrite E. reflexivity.
Qed.

Lemma time_phrases_distinct : NoDup time_phrases.
Proof. apply distinct_NoDup. reflexivity. Qed.

(** C6, as the code has it.  The date-time command has seven phrasings:
    an input is answered with the current date and time if and only if it
    is one of seven fixed, pairwise distinct phrases. *)
Theorem time_command_phrases (input : string) (bot : ChatBot) (io : IO) :
  holds_content bot ->
  (emits_date_time input bot io <-> In input time_phrases)
  /\ List.length time_phrases = 7 /\ NoDup time_phrases.
Proof.
  intros HC. split; [|split; [reflexivity | apply time_phrases_distinct]].
  split; [now apply emits_only_time_phrase | apply time_phrase_emits].
Qed.

End Router.

(** ** The session *)

Section Session.

Lemma is_exit_tokens (input : string) :
  is_exit input = true <-> In input exit_tokens.
Proof.
  unfold is_exit, exit_tokens. cbn [In].
  rewrite !orb_true_iff, !String.eqb_eq. intuition congruence.
Qed.

(** [processInput] touches the bot only to clear the flag, on an exit
    token. *)
Lemma processInput_bot (input : string) (bot : ChatBot) (io : IO) :
  fst (processInput input bot io)
  = if is_exit input then set_running false bot else bot.
Proof.
  unfold processInput.
  destruct (is_exit input); [reflexivity|].
  destruct (is_help input); [reflexivity|].
  destruct (is_joke input); [now destruct (Util.randomInt _ _ io)|].
  destruct (is_fact input); [now destruct (Util.randomInt _ _ io)|].
  destruct (is_time input); [reflexivity|].
  destruct (is_flip input); [now destruct (Util.randomInt _ _ io)|].
  destruct (is_roll input); [now destruct (Util.randomInt _ _ io)|].
  destruct (is_uptime input); [reflexivity|].
  destruct (is_history input); [reflexivity|].
  destruct (is_clear input); [reflexivity|].
  destruct (is_reverse input); [reflexivity|].
  destruct (is_count input); [reflexivity|].
  destruct (is_calc input); reflexivity.
Qed.

Lemma processInput_history (input : string) (bot : ChatBot) (io : IO) :
  history_ (fst (processInput input bot io)) = history_ bot.
Proof. rewrite processInput_bot. now destruct (is_exit input). Qed.

Lemma processInput_running (input : string) (bot : ChatBot) (io : IO) :
  running_ (fst (processInput input bot io))
  = running_ bot && negb (is_exit input).
Proof.
  rewrite processInput_bot.
  destruct (is_exit input); cbn; now rewrite ?andb_false_r, ?andb_true_r.
Qed.

Lemma calculatorLoop_consumes (lines : list string) :
  List.length (snd (calculatorLoop lines)) <= List.length lines.
Proof.
  induction lines as [|raw rest IH]; cbn [calculatorLoop]; [reflexivity|].
  destruct (is_calc_exit (Util.trim raw)); cbn [snd List.length]; [lia|].
  destruct (calculatorLoop rest) as [evs rest']. cbn [snd] in *. lia.
Qed.

Lemma randomInt_cin (lo hi : Z) (io : IO) :
  cin (snd (Util.randomInt lo hi io)) = cin io.
Proof. unfold Util.randomInt. now destruct (rng io). Qed.

Local Ltac keeps_input_after_draw lo hi io :=
  let C := fresh "C" in
  pose proof (randomInt_cin lo hi io) as C;
  destruct (Util.randomInt lo hi io); cbn in *; now rewrite C.

(** [processInput] never puts lines back on the input. *)
Lemma processInput_consumes (input : string) (bot : ChatBot) (io : IO) :
  List.length (cin (snd (processInput input bot io))) <= List.length (cin io).
Proof.
  unfold processInput.
  destruct (is_exit input); [reflexivity|].
  destruct (is_help input); [reflexivity|].
  destruct (is_joke input);
    [keeps_input_after_draw 0%Z (Z.of_nat (List.length (jokes_ bot)) - 1)%Z io|].
  destruct (is_fact input);
    [keeps_input_after_draw 0%Z (Z.of_nat (List.length (facts_ bot)) - 1)%Z io|].
  destruct (is_time input); [reflexivity|].
  destruct (is_flip input); [keeps_input_after_draw 0%Z 1%Z io|].
  destruct (is_roll input); [keeps_input_after_draw 1%Z 6%Z io|].
  destruct (is_uptime input); [reflexivity|].
  destruct (is_history input).
  { unfold showHistory. now destruct (history_ bot). }
  destruct (is_clear input); [reflexivity|].
  destruct (is_reverse input); [reflexivity|].
  destruct (is_count input); [reflexivity|].
  destruct (is_calc input).
  { unfold runCalculator. cbn [snd].
    pose proof (calculatorLoop_consumes (cin io)) as C.
    cbn [botSayMultiline Util.printSeparator emit cin].
    destruct (calculatorLoop (cin io)). cbn [snd cin] in *. exact C. }
  cbn [snd]. unfold resolve.
  repeat match goal with |- context [match ?x with _ => _ end] => destruct x end;
    reflexivity.
Qed.

(** The fixed data stays as the constructor left it. *)
Lemma processInput_keeps_content (input : string) (bot : ChatBot) (io : IO) :
  holds_content bot -> holds_content (fst (processInput input bot io)).
Proof. rewrite processInput_bot. now destruct (is_exit input). Qed.

Lemma loopBody_end (bot : ChatBot) (io : IO) :
  cin io = [] -> loopBody bot io = (Break, (bot, emit (Put loop_prompt) io)).
Proof.
  intros E. unfold loopBody, getline. cbn [emit cin].
  rewrite E. reflexivity.
Qed.

Lemma loopBody_line (bot : ChatBot) (io : IO) (line : string)
  (rest : list string) :
  cin io = line :: rest ->
  loopBody bot io
  = if String.eqb (Util.normalize line) "" then
      (Continue, (bot, prompted io rest))
    else
      (Continue,
       processInput (Util.normalize line)
         (push_history (Util.normalize line) bot) (prompted io rest)).
Proof.
  intros E. unfold loopBody, getline, prompted. cbn [emit cin].
  rewrite E. reflexivity.
Qed.

(** The loop stops on every finite input. *)
Lemma chatLoop_terminates (fuel : nat) :
  forall bot io, List.length (cin io) + 2 <= fuel ->
                 exists state, chatLoop fuel bot io = Some state.
Proof.
  induction fuel as [|fuel IH]; intros bot io F; [lia|].
  cbn [chatLoop]. destruct (running_ bot); [|now eexists].
  destruct (cin io) as [|line rest] eqn:E.
  - rewrite (loopBody_end _ _ E). now eexists.
  - rewrite (loopBody_line _ _ _ _ E).
    destruct (String.eqb (Util.normalize line) "").
    + apply IH. cbn [prompted cin List.length] in *. lia.
    + pose proof (processInput_consumes (Util.normalize line)
                    (push_history (Util.normalize line) bot)
                    (prompted io rest)) as C.
      destruct (processInput _ _ _) as [bot2 io2]. apply IH.
      cbn [snd prompted cin List.length] in *. lia.
Qed.

(** What a finished loop has recorded: it stopped at the end of the
    input with the flag up and no exit token read, or with the flag
    down right after the one exit token it read. *)
Lemma chatLoop_trace (fuel : nat) :
  forall bot io bot' io',
    chatLoop fuel bot io = Some (bot', io') ->
    running_ bot = true ->
    exists recorded,
      history_ bot' = (history_ bot ++ recorded)%list
      /\ ((running_ bot' = true /\ cin io' = []
           /\ Forall (fun i => is_exit i = false) recorded)
          \/ (running_ bot' = false
              /\ exists earlier token,
                   recorded = (earlier ++ [token])%list
                   /\ is_exit token = true
                   /\ Forall (fun i => is_exit i = false) earlier)).
Proof.
  induction fuel as [|fuel IH]; intros bot io bot' io' H R; [discriminate|].
  cbn [chatLoop] in H. rewrite R in H.
  destruct (cin io) as [|line rest] eqn:E.
  - rewrite (loopBody_end _ _ E) in H. injection H as <- <-.
    exists []. rewrite app_nil_r. split; [reflexivity|]. left. auto.
  - rewrite (loopBody_line _ _ _ _ E) in H.
    destruct (String.eqb (Util.normalize line) ""); [now apply (IH _ _ _ _ H)|].
    set (input := Util.normalize line) in *.
    pose proof (processInput_history input (push_history input bot)
                  (prompted io rest)) as Hh.
    pose proof (processInput_running input (push_history input bot)
                  (prompted io rest)) as Hr.
    destruct (processInput _ _ _) as [bot2 io2]. cbn [fst] in Hh, Hr.
    cbn [push_history history_ running_] in Hh, Hr. rewrite R in Hr.
    destruct (is_exit input) eqn:X; cbn in Hr.
    + destruct fuel as [|fuel]; [discriminate|].
      cbn [chatLoop] in H. rewrite Hr in H. injection H as <- <-.
      exists [input]. split; [assumption|]. right. split; [assumption|].
      exists [], input. auto.
    + destruct (IH _ _ _ _ H Hr) as (recorded & Hrec & Hcase).
      exists (input :: recorded). rewrite Hrec, Hh, <- app_assoc.
      split; [reflexivity|].
      destruct Hcase as [(? & ? & ?) | (? & earlier & token & -> & ? & ?)].
      * left. auto.
      * right. split; [assumption|]. exists (input :: earlier), token. auto.
Qed.

(** [run], and with it [main], returns on every finite input. *)
Lemma run_terminates (bot : ChatBot) (io : IO) :
  exists state, run bot io = Some state.
Proof.
  unfold run. destruct (welcomeSequence (showBanner io)) as [[|] io1];
    [|now eexists].
  destruct (chatLoop_terminates (turns io1) bot io1) as [[bot' io'] ->];
    [unfold turns; lia | now eexists].
Qed.

(** C5, as the code has it.  The running flag is true when the session
    starts and only an exit token ("bye", "exit", "quit", "q") clears it;
    nothing sets it again.  The main loop always stops, and it stops when
    the flag is down or the input has ended: either the input is
    exhausted, the flag still up and no exit token was read, or the flag
    is down and the one exit token read is the last input recorded. *)
Theorem running_flag_lifecycle :
  (forall io, running_ (construct io) = true)
  /\ (forall input bot io,
        running_ (fst (processInput input bot io))
        = running_ bot && negb (is_exit input))
  /\ (forall input, is_exit input = true <-> In input exit_tokens)
  /\ (forall bot io,
        exists bot' io',
          chatLoop (turns io) bot io = Some (bot', io')
          /\ (running_ bot' = false \/ cin io' = []))
  /\ (forall bot io bot' io',
        running_ bot = true ->
        chatLoop (turns io) bot io = Some (bot', io') ->
        exists recorded,
          history_ bot' = (history_ bot ++ recorded)%list
          /\ ((running_ bot' = true /\ cin io' = []
               /\ Forall (fun i => is_exit i = false) recorded)
              \/ (running_ bot' = false
                  /\ exists earlier token,
                       recorded = (earlier ++ [token])%list
                       /\ is_exit token = true
                       /\ Forall (fun i => is_exit i = false) earlier))).
Proof.
  split; [reflexivity|].
  split; [exact processInput_running|].
  split; [exact is_exit_tokens|].
  split.
  - intros bot io.
    destruct (chatLoop_terminates (turns io) bot io) as [[bot' io'] H];
      [unfold turns; lia|].
    exists bot', io'. split; [assumption|].
    destruct (running_ bot) eqn:R.
    + destruct (chatLoop_trace _ _ _ _ _ H R)
        as (recorded & _ & [(_ & ? & _) | (? & _)]); auto.
    + unfold turns in H. cbn [chatLoop] in H. rewrite R in H.
      injection H as <- <-. now left.
  - intros bot io bot' io' R H. exact (chatLoop_trace _ _ _ _ _ H R).
Qed.

(** C7.  A raw line that normalises to the empty string (such a line
    holds nothing but spaces, tabs, CRs and LFs) makes the loop go on to
    the next line: the bot, and with it the history, is unchanged, and
    nothing but the prompt has been written. *)
Theorem empty_input_skipped (bot : ChatBot) (io : IO) (line : string)
  (rest : list string) :
  cin io = line :: rest ->
  Util.normalize line = "" ->
  loopBody bot io = (Continue, (bot, prompted io rest))
  /\ (forall fuel, running_ bot = true ->
                   chatLoop (S fuel) bot io = chatLoop fuel bot (prompted io rest))
  /\ history_ (fst (snd (loopBody bot io))) = history_ bot
  /\ cout (snd (snd (loopBody bot io))) = (cout io ++ [Put loop_prompt])%list
  /\ forallb (fun c => Str.mem c Util.whitespace) (list_ascii_of_string line)
     = true.
Proof.
  intros E N.
  assert (B : loopBody bot io = (Continue, (bot, prompted io rest))).
  { rewrite (loopBody_line _ _ _ _ E), N. reflexivity. }
  split; [exact B|].
  split; [|rewrite B; repeat split; now apply normalize_empty].
  intros fuel R. cbn [chatLoop]. now rewrite R, B.
Qed.



End Session.

(** ** The calculator *)

Section Calculator.

(** The exit keywords are no expressions. *)
Lemma exit_word_not_expression (line : string) :
  is_calc_exit line = true -> parse_expression line = None.
Proof.
  destruct line as [|c s]; [discriminate|].
  unfold is_calc_exit. cbn [Util.toLower].
  destruct c as [[] [] [] [] [] [] [] []]; intros H;
    cbn in H; try discriminate H; reflexivity.
Qed.

Lemma calculatorLoop_goes_on (raw : string) (rest : list string) :
  is_calc_exit (Util.trim raw) = false ->
  calculatorLoop (raw :: rest)
  = (Put calc_prompt
       :: (calcEvaluate (Util.trim raw) ++ fst (calculatorLoop rest))%list,
     snd (calculatorLoop rest)).
Proof.
  intros H. cbn [calculatorLoop]. rewrite H.
  now destruct (calculatorLoop rest).
Qed.

(** C4.  In the calculator a line that reads as a division by zero makes
    the bot say the division-by-zero warning and nothing else, no result
    line, and the loop goes on with the next line; a line that is no
    expression (and no exit keyword) makes it say the usage warning and
    go on likewise.  Neither warning has an ['='] in it. *)
Theorem division_by_zero_recoverable (raw : string) (rest : list string) :
  (forall a b,
     parse_expression (Util.trim raw) = Some (a, "/"%char, b) ->
     Dbl.is_zero b = true ->
     calculatorLoop (raw :: rest)
     = (Put calc_prompt :: BotSay calc_div_by_zero :: fst (calculatorLoop rest),
        snd (calculatorLoop rest)))
  /\ (is_calc_exit (Util.trim raw) = false ->
      parse_expression (Util.trim raw) = None ->
      calculatorLoop (raw :: rest)
      = (Put calc_prompt :: BotSay calc_usage :: fst (calculatorLoop rest),
         snd (calculatorLoop rest)))
  /\ Str.find calc_div_by_zero "=" = None
  /\ Str.find calc_usage "=" = None
  /\ Str.find calc_prompt "=" = None.
Proof.
  split; [|split; [|repeat split; vm_compute; reflexivity]].
  - intros a b P Z.
    assert (X : is_calc_exit (Util.trim raw) = false).
    { destruct (is_calc_exit (Util.trim raw)) eqn:X; [|reflexivity].
      rewrite (exit_word_not_expression _ X) in P. discriminate. }
    rewrite (calculatorLoop_goes_on _ _ X).
    unfold calcEvaluate. rewrite P. unfold apply_operator. cbn. rewrite Z.
    reflexivity.
  - intros X P. rewrite (calculatorLoop_goes_on _ _ X).
    unfold calcEvaluate. rewrite P. reflexivity.
Qed.

(** *** The result line *)

Lemma string_app_assoc (p q r : string) : (p ++ q) ++ r = p ++ q ++ r.
Proof. induction p as [|c p IH]; cbn; [reflexivity | now rewrite IH]. Qed.

Lemma find_last_append (p t chars : string) (i : nat) :
  Str.find_last_not_of t chars = Some i ->
  Str.find_last_not_of (p ++ t) chars = Some (String.length p + i).
Proof.
  intros H. induction p as [|c p IH]; cbn [append String.length Nat.add];
    [assumption|].
  cbn [Str.find_last_not_of]. now rewrite IH.
Qed.

Lemma substring_append (p t : string) (n : nat) :
  substring 0 (String.length p + n) (p ++ t) = p ++ substring 0 n t.
Proof.
  induction p as [|c p IH]; cbn [append String.length Nat.add substring];
    [reflexivity | now rewrite IH].
Qed.

Lemma append_nonempty (p t : string) : t <> "" -> p ++ t <> "".
Proof. destruct p; cbn; [auto | discriminate]. Qed.

Lemma back_append (p t : string) : t <> "" -> Str.back (p ++ t) = Str.back t.
Proof.
  intros N. induction p as [|c p IH]; cbn [append]; [reflexivity|].
  cbn [Str.back]. pose proof (append_nonempty p t N) as N'.
  destruct (p ++ t); [contradiction | exact IH].
Qed.

Lemma pop_back_append (p t : string) :
  t <> "" -> Str.pop_back (p ++ t) = p ++ Str.pop_back t.
Proof.
  intros N. induction p as [|c p IH]; cbn [append]; [reflexivity|].
  cbn [Str.pop_back]. pose proof (append_nonempty p t N) as N'.
  destruct (p ++ t); [contradiction | now rewrite IH].
Qed.

Lemma find_append (p t key : string) (n : nat) :
  Str.find t key = Some n -> exists m, Str.find (p ++ t) key = Some m.
Proof.
  intros H. apply contains_find.
  destruct (find_contains _ _ _ H) as (before & after & ->).
  exists (p ++ before), after. now rewrite string_app_assoc.
Qed.

Lemma find_last_prefix_nonempty (t chars : string) (i : nat) :
  Str.find_last_not_of t chars = Some i -> substring 0 (i + 1) t <> "".
Proof.
  destruct t as [|c t]; [discriminate|]. intros _.
  replace (i + 1) with (S i) by lia. discriminate.
Qed.

(** Stripping the line strips its last number only, provided the number
    has a character other than ['0'] and, when it has no decimal point,
    ends in neither ['0'] nor ['.']. *)
Lemma strip_append (p t : string) (i : nat) :
  Str.find_last_not_of t "0" = Some i ->
  (Str.find t "." = None ->
   substring 0 (i + 1) t = t /\ Str.back t <> Some "."%char) ->
  strip_trailing_zeros (p ++ t) = p ++ strip_trailing_zeros t.
Proof.
  intros L D. unfold strip_trailing_zeros.
  rewrite (find_last_append p t _ i L), L.
  unfold Str.substr. rewrite <- Nat.add_assoc, substring_append.
  pose proof (find_last_prefix_nonempty _ _ _ L) as N.
  destruct (Str.find t ".") as [n|] eqn:F.
  - destruct (find_append p t "." n F) as [m ->].
    rewrite (back_append _ _ N).
    destruct (Str.back (substring 0 (i + 1) t)) as [c|]; [|reflexivity].
    destruct (Ascii.eqb_spec c ".") as [->|Hc].
    + now rewrite (pop_back_append _ _ N).
    + destruct c as [[] [] [] [] [] [] [] []]; try reflexivity. contradiction.
  - destruct (D eq_refl) as [E B]. rewrite E in *.
    destruct (Str.find (p ++ t) "."); [|reflexivity].
    rewrite (back_append _ _ N).
    destruct (Str.back t) as [c|]; [|reflexivity].
    destruct (Ascii.eqb_spec c ".") as [->|Hc]; [contradiction|].
    destruct c as [[] [] [] [] [] [] [] []]; try reflexivity. contradiction.
Qed.

Lemma find_last_exists (before after chars : string) (c : ascii) :
  Str.mem c chars = false ->
  exists i, Str.find_last_not_of (before ++ String c after) chars = Some i.
Proof.
  intros M. induction before as [|d before [i IH]]; cbn [append].
  - cbn [Str.find_last_not_of]. rewrite M.
    destruct (Str.find_last_not_of after chars); eauto.
  - cbn [Str.find_last_not_of]. rewrite IH. eauto.
Qed.

Lemma find_point (before after : string) :
  exists n, Str.find (before ++ "." ++ after) "." = Some n.
Proof. apply contains_find. now exists before, after. Qed.

(** What the fixed notation writes can be stripped on its own. *)
Lemma put_fixed4_strippable (r : Dbl.double) :
  exists i,
    Str.find_last_not_of (Dbl.put_fixed4 r) "0" = Some i
    /\ (Str.find (Dbl.put_fixed4 r) "." = None ->
        substring 0 (i + 1) (Dbl.put_fixed4 r) = Dbl.put_fixed4 r
        /\ Str.back (Dbl.put_fixed4 r) <> Some "."%char).
Proof.
  destruct r as [[]|[]| |neg m e].
  1-5: eexists; split; [vm_compute; reflexivity|]; intros H;
       first [discriminate H | split; [reflexivity | discriminate]].
  unfold Dbl.put_fixed4.
  set (n := Dbl.scaled_round (Z.pos m) e 4).
  set (frac := Dbl.pad_zeros 4 (Str.of_Z (n mod 10000))).
  replace (Dbl.sign_text neg ++ Str.of_Z (n / 10000) ++ "." ++ frac)
    with ((Dbl.sign_text neg ++ Str.of_Z (n / 10000)) ++ String "." frac)
    by now rewrite string_app_assoc.
  destruct (find_last_exists (Dbl.sign_text neg ++ Str.of_Z (n / 10000)) frac
              "0" "." eq_refl) as [i L].
  exists i. split; [exact L|]. intros H.
  destruct (find_point (Dbl.sign_text neg ++ Str.of_Z (n / 10000)) frac)
    as [k F].
  cbn [append] in F. rewrite F in H. discriminate.
Qed.

Lemma render_result_split (a b r : Dbl.double) (op : ascii) :
  render_result a op b r
  = Dbl.put_fixed4 a ++ " " ++ String op "" ++ " " ++ Dbl.put_fixed4 b
      ++ " = " ++ strip_trailing_zeros (Dbl.put_fixed4 r).
Proof.
  unfold render_result.
  destruct (put_fixed4_strippable r) as (i & L & D).
  rewrite <- (string_app_assoc (Dbl.put_fixed4 b) " = ").
  rewrite <- (string_app_assoc " " (Dbl.put_fixed4 b ++ " = ")).
  rewrite <- (string_app_assoc (String op "")).
  rewrite <- (string_app_assoc " ").
  rewrite <- (string_app_assoc (Dbl.put_fixed4 a)).
  rewrite (strip_append _ _ i L D).
  now rewrite !string_app_assoc.
Qed.

(** What the code renders on a successful computation: the check mark
    and then the line made of both operands in fixed notation with four
    decimals, the operator between single spaces, [" = "], and the
    result in fixed notation with up to four decimals, its trailing
    zeros and a trailing decimal point stripped. *)
Theorem calculator_result_line (line : string) (a b r : Dbl.double)
  (op : ascii) :
  parse_expression line = Some (a, op, b) ->
  apply_operator a op b = inl r ->
  calcEvaluate line
  = [BotSay ("✅ " ++ Dbl.put_fixed4 a ++ " " ++ String op "" ++ " "
               ++ Dbl.put_fixed4 b ++ " = "
               ++ strip_trailing_zeros (Dbl.put_fixed4 r))]
  /\ calcEvaluate "5 + 3" = [BotSay "✅ 5.0000 + 3.0000 = 8"]
  /\ calcEvaluate "7 / 2" = [BotSay "✅ 7.0000 / 2.0000 = 3.5"].
Proof.
  intros P A. split; [|split; vm_compute; reflexivity].
  unfold calcEvaluate. rewrite P, A, render_result_split. reflexivity.
Qed.

(** C3.  The code at the failing inputs.  On ["5 + 3"] the bot says
    ["5.0000 + 3.0000 = 8"] and not ["5 + 3 = 8"], on ["7 / 2"] it says
    ["7.0000 / 2.0000 = 3.5"] and not ["7 / 2 = 3.5"]: the stream is
    left in fixed notation with four decimals for the operands too, and
    the step that removes the trailing zeros is applied to the whole
    line, so that it reaches the zeros of the result only. *)
Theorem calculator_operands_keep_zeros :
  calcEvaluate "5 + 3" = [BotSay "✅ 5.0000 + 3.0000 = 8"]
  /\ calcEvaluate "5 + 3" <> [BotSay "✅ 5 + 3 = 8"]
  /\ calcEvaluate "7 / 2" = [BotSay "✅ 7.0000 / 2.0000 = 3.5"]
  /\ calcEvaluate "7 / 2" <> [BotSay "✅ 7 / 2 = 3.5"]
  /\ strip_trailing_zeros "5.0000 + 3.0000 = 8.0000" = "5.0000 + 3.0000 = 8".
Proof.
  assert (E1 : calcEvaluate "5 + 3" = [BotSay "✅ 5.0000 + 3.0000 = 8"])
    by (vm_compute; reflexivity).
  assert (E2 : calcEvaluate "7 / 2" = [BotSay "✅ 7.0000 / 2.0000 = 3.5"])
    by (vm_compute; reflexivity).
  split; [exact E1|]. split; [rewrite E1; discriminate|].
  split; [exact E2|]. split; [rewrite E2; discriminate|].
  vm_compute. reflexivity.
Qed.

(** *** Reading an expression *)

Lemma ends_number_tail (c : ascii) (s : string) :
  ends_number (String c s) = true -> ends_number s = true.
Proof. destruct s; [reflexivity | exact (fun H => H)]. Qed.

Lemma extract_digits_cons (fm fd fs : bool) (c : ascii) (s' : string) :
  Dbl.extract_digits fm fd fs (String c s')
  = if Dbl.is_digit c then
      let (x, r) := Dbl.extract_digits true fd fs s' in (String c x, r)
    else if Ascii.eqb c "." && negb fd && negb fs then
      let (x, r) := Dbl.extract_digits fm true fs s' in (String "." x, r)
    else if (Ascii.eqb c "e" || Ascii.eqb c "E") && negb fs && fm then
      match s' with
      | "" => ("e", "")
      | String d s'' =>
          if Ascii.eqb d "+" || Ascii.eqb d "-" then
            let (x, r) := Dbl.extract_digits fm fd true s'' in
            (String "e" (String d x), r)
          else
            let (x, r) := Dbl.extract_digits fm fd true s' in
            (String "e" x, r)
      end
    else ("", String c s').
Proof. reflexivity. Qed.

(** Nothing is gathered from a text that starts with a stopping
    character. *)
Lemma extract_digits_stops (fm fd fs : bool) (tail : string) :
  stops tail = true -> Dbl.extract_digits fm fd fs tail = ("", tail).
Proof.
  destruct tail as [|c r]; [reflexivity|]. intros H.
  unfold stops, continues in H. apply negb_true_iff in H.
  apply orb_false_elim in H as [H He2].
  apply orb_false_elim in H as [H He1].
  apply orb_false_elim in H as [Hd Hp].
  rewrite extract_digits_cons, Hd, Hp, He1, He2. reflexivity.
Qed.

(** Gathering a field is local: what follows a character that stops the
    field does not matter. *)
Lemma extract_digits_local (n : nat) :
  forall t, String.length t <= n ->
  forall fm fd fs f tail,
    Dbl.extract_digits fm fd fs t = (f, "") ->
    ends_number t = true -> stops tail = true ->
    Dbl.extract_digits fm fd fs (t ++ tail) = (f, tail).
Proof.
  induction n as [|n IH]; intros t Len fm fd fs f tail H E S.
  - destruct t; [|cbn in Len; lia]. cbn in H. injection H as <-.
    now apply extract_digits_stops.
  - destruct t as [|c s'].
    { cbn in H. injection H as <-. now apply extract_digits_stops. }
    cbn [String.length] in Len. assert (Len' : String.length s' <= n) by lia.
    pose proof (ends_number_tail _ _ E) as E'.
    cbn [append]. rewrite extract_digits_cons in H |- *.
    destruct (Dbl.is_digit c) eqn:Hd.
    { destruct (Dbl.extract_digits true fd fs s') as [x r] eqn:X.
      injection H as <- ->. now rewrite (IH s' Len' _ _ _ _ _ X E' S). }
    destruct (Ascii.eqb c "." && negb fd && negb fs) eqn:Hp.
    { destruct (Dbl.extract_digits fm true fs s') as [x r] eqn:X.
      injection H as <- ->. now rewrite (IH s' Len' _ _ _ _ _ X E' S). }
    destruct ((Ascii.eqb c "e" || Ascii.eqb c "E") && negb fs && fm) eqn:He;
      [|discriminate].
    destruct s' as [|d s''].
    { exfalso. apply andb_prop in He as [He _]. apply andb_prop in He as [He _].
      apply orb_prop in He as [He | He]; apply Ascii.eqb_eq in He; subst c;
        discriminate E. }
    cbn [append].
    destruct (Ascii.eqb d "+" || Ascii.eqb d "-").
    + destruct (Dbl.extract_digits fm fd true s'') as [x r] eqn:X.
      injection H as <- ->.
      assert (Len'' : String.length s'' <= n) by (cbn in Len'; lia).
      now rewrite (IH s'' Len'' _ _ _ _ _ X (ends_number_tail _ _ E') S).
    + destruct (Dbl.extract_digits fm fd true (String d s'')) as [x r] eqn:X.
      injection H as <- ->.
      change (String d (s'' ++ tail)) with (String d s'' ++ tail).
      now rewrite (IH _ Len' _ _ _ _ _ X E' S).
Qed.

Lemma stops_not_zero (c : ascii) (r : string) :
  stops (String c r) = true -> Ascii.eqb c "0" = false.
Proof.
  destruct (Ascii.eqb_spec c "0") as [->|]; [discriminate | reflexivity].
Qed.

Lemma skip_zeros_append (t tail : string) :
  stops tail = true -> Dbl.skip_zeros (t ++ tail) = Dbl.skip_zeros t ++ tail.
Proof.
  intros S. induction t as [|c t IH]; cbn [append Dbl.skip_zeros].
  - destruct tail as [|c r]; [reflexivity|]. cbn [Dbl.skip_zeros].
    now rewrite (stops_not_zero _ _ S).
  - destruct (Ascii.eqb c "0"); [exact IH | reflexivity].
Qed.

Lemma ends_number_skip_zeros (t : string) :
  ends_number t = true -> ends_number (Dbl.skip_zeros t) = true.
Proof.
  induction t as [|c t IH]; [reflexivity|]. intros E. cbn [Dbl.skip_zeros].
  destruct (Ascii.eqb c "0"); [|assumption].
  apply IH. exact (ends_number_tail _ _ E).
Qed.

Lemma extract_mantissa_local (t f tail : string) :
  Dbl.extract_mantissa t = (f, "") ->
  ends_number t = true -> stops tail = true ->
  Dbl.extract_mantissa (t ++ tail) = (f, tail).
Proof.
  unfold Dbl.extract_mantissa. intros H E S.
  assert (W : Dbl.starts_with "0" (t ++ tail) = Dbl.starts_with "0" t).
  { destruct t as [|c t]; [|reflexivity]. destruct tail as [|c r]; [reflexivity|].
    cbn. exact (stops_not_zero _ _ S). }
  rewrite W. destruct (Dbl.starts_with "0" t).
  - rewrite (skip_zeros_append _ _ S).
    destruct (Dbl.extract_digits true false false (Dbl.skip_zeros t))
      as [x r] eqn:X.
    injection H as <- ->.
    now rewrite (extract_digits_local _ _ (le_n _) _ _ _ _ _ X
                   (ends_number_skip_zeros _ E) S).
  - exact (extract_digits_local _ _ (le_n _) _ _ _ _ _ H E S).
Qed.

Lemma extract_float_local (t f tail : string) :
  t <> "" ->
  Dbl.extract_float t = (f, "") ->
  ends_number t = true -> stops tail = true ->
  Dbl.extract_float (t ++ tail) = (f, tail).
Proof.
  destruct t as [|c s']; [contradiction|]. intros _ H E S.
  cbn [append Dbl.extract_float] in *.
  destruct (Ascii.eqb c "+" || Ascii.eqb c "-").
  - destruct (Dbl.extract_mantissa s') as [x r] eqn:X. injection H as <- ->.
    now rewrite (extract_mantissa_local _ _ _ X (ends_number_tail _ _ E) S).
  - exact (extract_mantissa_local (String c s') _ _ H E S).
Qed.

Lemma skipws_append (t tail : string) :
  Dbl.skipws t <> "" -> Dbl.skipws (t ++ tail) = Dbl.skipws t ++ tail.
Proof.
  induction t as [|c t IH]; cbn [append Dbl.skipws]; [contradiction|].
  destruct (Dbl.isspace c); [exact IH | reflexivity].
Qed.

Lemma ends_number_skipws (t : string) :
  ends_number t = true -> ends_number (Dbl.skipws t) = true.
Proof.
  induction t as [|c t IH]; [reflexivity|]. intros E. cbn [Dbl.skipws].
  destruct (Dbl.isspace c); [|assumption].
  apply IH. exact (ends_number_tail _ _ E).
Qed.

(** A number is read the same whatever follows it, if what follows
    starts with a stopping character. *)
Lemma get_double_local (t tail : string) (v : Dbl.double) :
  numeral t v -> stops tail = true ->
  Dbl.get_double (t ++ tail) = Some (v, tail).
Proof.
  intros [H E] S. unfold Dbl.get_double in *.
  destruct (Dbl.extract_float (Dbl.skipws t)) as [f r] eqn:X.
  destruct (Dbl.strtod f) as [v'|] eqn:V; [|discriminate].
  injection H as -> ->.
  assert (N : Dbl.skipws t <> "").
  { intros N. rewrite N in X. cbn in X. injection X as <-. discriminate V. }
  rewrite (skipws_append _ _ N).
  rewrite (extract_float_local _ _ _ N X (ends_number_skipws _ E) S).
  now rewrite V.
Qed.

Lemma skipws_blank (w x : string) :
  blank w = true -> Dbl.skipws (w ++ x) = Dbl.skipws x.
Proof.
  induction w as [|c w IH]; [reflexivity|]. cbn [blank append Dbl.skipws].
  intros H. apply andb_prop in H as [-> H]. auto.
Qed.

Lemma operator_visible (op : ascii) :
  is_operator op = true ->
  Dbl.isspace op = false /\ continues op = false.
Proof.
  unfold is_operator. rewrite !orb_true_iff, !Ascii.eqb_eq.
  intros [[[[-> | ->] | ->] | ->] | ->]; split; reflexivity.
Qed.

Lemma space_stops (c : ascii) : Dbl.isspace c = true -> continues c = false.
Proof.
  destruct c as [[] [] [] [] [] [] [] []]; vm_compute;
    first [reflexivity | discriminate].
Qed.

Lemma operator_separates (op : ascii) :
  is_operator op = true -> separates op = true.
Proof.
  intros O. destruct (operator_visible _ O) as [S C].
  unfold separates. now rewrite S, C.
Qed.

Lemma separates_visible (op : ascii) :
  separates op = true -> Dbl.isspace op = false /\ continues op = false.
Proof.
  unfold separates. intros H. apply andb_prop in H as [S C].
  split; now apply negb_true_iff.
Qed.

Lemma blank_then_operator_stops (w x : string) (op : ascii) :
  blank w = true -> separates op = true -> stops (w ++ String op x) = true.
Proof.
  intros B O. destruct w as [|c w]; cbn [append stops].
  - now rewrite (proj2 (separates_visible _ O)).
  - cbn [blank] in B. apply andb_prop in B as [B _].
    now rewrite (space_stops _ B).
Qed.

(** What the bot says depends on the line through the parse only. *)
Lemma calcEvaluate_parse (l1 l2 : string) :
  parse_expression l1 = parse_expression l2 -> calcEvaluate l1 = calcEvaluate l2.
Proof. unfold calcEvaluate. now intros ->. Qed.

Lemma parse_spaced (ta w1 w2 y rest : string) (a b : Dbl.double) (op : ascii) :
  numeral ta a -> separates op = true ->
  blank w1 = true -> blank w2 = true ->
  Dbl.get_double y = Some (b, rest) ->
  parse_expression (ta ++ w1 ++ String op (w2 ++ y)) = Some (a, op, b).
Proof.
  intros N O B1 B2 Y. unfold parse_expression.
  rewrite (get_double_local _ _ _ N (blank_then_operator_stops _ _ _ B1 O)).
  unfold Dbl.get_char. rewrite (skipws_blank _ _ B1). cbn [Dbl.skipws].
  rewrite (proj1 (separates_visible _ O)).
  unfold Dbl.get_double in *. rewrite (skipws_blank _ _ B2).
  destruct (Dbl.extract_float (Dbl.skipws y)) as [f r].
  destruct (Dbl.strtod f); [|discriminate]. now injection Y as -> _.
Qed.

(** C10, as the code has it.  The calculator reads a number, an
    operator character and a number whatever white space, if any,
    stands around the operator character, as long as that character is
    none a number goes on with (a digit, the point, [e] or [E]): each of
    [+ - * x /] is such a character.  What follows the second number
    is not looked at, as long as it does not start with a character a
    number goes on with.  The line is then computed as the same line
    without the white space, and without what follows.  ["5+3"] is
    computed. *)
Theorem calculator_tolerant_parse (ta w1 w2 : string) (a : Dbl.double)
  (op : ascii) :
  numeral ta a -> separates op = true ->
  blank w1 = true -> blank w2 = true ->
  (forall y b rest,
     Dbl.get_double y = Some (b, rest) ->
     parse_expression (ta ++ w1 ++ String op (w2 ++ y)) = Some (a, op, b)
     /\ calcEvaluate (ta ++ w1 ++ String op (w2 ++ y))
        = calcEvaluate (ta ++ String op y))
  /\ (forall tb b tail,
        numeral tb b -> stops tail = true ->
        calcEvaluate (ta ++ w1 ++ String op (w2 ++ tb ++ tail))
        = calcEvaluate (ta ++ String op tb))
  /\ (forall c, is_operator c = true -> separates c = true)
  /\ calcEvaluate "5+3" = [BotSay "✅ 5.0000 + 3.0000 = 8"].
Proof.
  intros N O B1 B2.
  assert (G : forall y b rest,
            Dbl.get_double y = Some (b, rest) ->
            parse_expression (ta ++ w1 ++ String op (w2 ++ y)) = Some (a, op, b)
            /\ parse_expression (ta ++ String op y) = Some (a, op, b)).
  { intros y b rest Y. split; [exact (parse_spaced _ _ _ _ _ _ _ _ N O B1 B2 Y)|].
    exact (parse_spaced ta "" "" y rest a b op N O eq_refl eq_refl Y). }
  split; [|split; [|split; [exact operator_separates|vm_compute; reflexivity]]].
  - intros y b rest Y. destruct (G y b rest Y) as [P1 P2].
    split; [exact P1 | apply calcEvaluate_parse; congruence].
  - intros tb b tail T S. apply calcEvaluate_parse.
    destruct (G (tb ++ tail) b tail (get_double_local _ _ _ T S)) as [-> _].
    destruct (G tb b "" (proj1 T)) as [_ ->]. reflexivity.
Qed.

End Calculator.

(** ** Concrete sessions *)

Section Examples.

Lemma construct_holds_content (io : IO) : holds_content (construct io).
Proof. repeat split; apply Permutation_refl. Qed.

(** The result line is not the expression as typed followed by the
    result: on ["5 + 3"] the operands come back in fixed notation. *)
Lemma calculator_line_not_echo :
  ~ (forall line a op b r,
       parse_expression line = Some (a, op, b) ->
       apply_operator a op b = inl r ->
       calcEvaluate line
       = [BotSay ("✅ " ++ line ++ " = "
                    ++ strip_trailing_zeros (Dbl.put_fixed4 r))]).
Proof.
  intros H.
  specialize (H "5 + 3" _ "+"%char _ _ eq_refl eq_refl).
  vm_compute in H. discriminate H.
Qed.

(** The loop also stops at the end of the input, with the flag up. *)
Lemma loop_ends_with_flag_up :
  ~ (forall fuel bot io bot' io',
       chatLoop fuel bot io = Some (bot', io') -> running_ bot' = false).
Proof.
  intros H.
  specialize (H 1 (construct (terminal [])) (terminal []) _ _ eq_refl).
  discriminate H.
Qed.

(** No set of six phrases is the set of date-time phrasings. *)
Lemma time_phrases_not_six :
  ~ exists six : list string,
      List.length six = 6
      /\ forall input,
           emits_date_time input (construct (terminal [])) (terminal [])
           <-> In input six.
Proof.
  intros (six & L & H).
  assert (I : incl time_phrases six).
  { intros p Hp. apply H. now apply time_phrase_emits. }
  pose proof (NoDup_incl_length time_phrases_distinct I) as Len.
  rewrite L in Len. cbn in Len. lia.
Qed.

(** What follows the second number is not always ignored, and white
    space around the operator character is not always immaterial.
    ["5 + 3"] is computed and ["5 + 3eggs"] is turned down with the
    usage warning: the [e] is taken for the start of an exponent and the
    number read as ["3e"], which is none.  ["5 e 3"] is read as 5, [e]
    and 3, and ["5e3"] as the one number 5000, with no operator behind
    it. *)
Lemma calculator_tail_not_ignored :
  ~ (forall line tail a op b,
       parse_expression line = Some (a, op, b) ->
       calcEvaluate (line ++ tail) = calcEvaluate line)
  /\ ~ (forall ta w1 w2 tb a op b,
          numeral ta a -> numeral tb b ->
          blank w1 = true -> blank w2 = true -> Dbl.isspace op = false ->
          calcEvaluate (ta ++ w1 ++ String op (w2 ++ tb))
          = calcEvaluate (ta ++ String op tb)).
Proof.
  split; intros H.
  - specialize (H "5 + 3" "eggs" _ "+"%char _ eq_refl).
    vm_compute in H. discriminate H.
  - assert (N5 : numeral "5" (S754_finite false 5629499534213120 (-50)))
      by (split; vm_compute; reflexivity).
    assert (N3 : numeral "3" (S754_finite false 6755399441055744 (-51)))
      by (split; vm_compute; reflexivity).
    specialize (H "5" " " " " "3" _ "e"%char _ N5 N3 eq_refl eq_refl eq_refl).
    vm_compute in H. discriminate H.
Qed.

Lemma resolve_exact_and_alias_witness :
  holds_lexicon fresh_bot
  /\ processInput "hello" fresh_bot (terminal [])
     = (fresh_bot, botSay "Hi there! How can I help you today?" (terminal []))
  /\ exists r,
       Umap.find "hi" (responses_ fresh_bot) = Some r
       /\ processInput "howdy" fresh_bot (terminal [])
          = (fresh_bot, botSay r (terminal [])).
Proof.
  assert (L : holds_lexicon fresh_bot) by (split; apply Permutation_refl).
  split; [exact L|]. split.
  - apply (proj1 (resolve_exact_and_alias fresh_bot (terminal []) L)).
    reflexivity.
  - apply (proj2 (resolve_exact_and_alias fresh_bot (terminal []) L) "howdy").
    reflexivity.
Defined.

Lemma substring_fallback_witness :
  (exists key response,
     In (key, response) initResponses
     /\ contains "well hello there" key /\ 3 <= String.length key
     /\ processInput "well hello there" fresh_bot (terminal [])
        = (fresh_bot, botSay response (terminal [])))
  /\ processInput "i say ok" fresh_bot (terminal [])
     = (fresh_bot, botSayMultiline no_match (terminal [])).
Proof.
  assert (L : holds_lexicon fresh_bot) by (split; apply Permutation_refl).
  split.
  - apply (proj1 (substring_fallback "well hello there" fresh_bot (terminal [])
                    L eq_refl eq_refl eq_refl)).
    exists "hello". split; [right; left; reflexivity|].
    split; [now exists "well ", " there" | cbn; lia].
  - apply (proj2 (proj2 (substring_fallback "i say ok" fresh_bot (terminal [])
                           L eq_refl eq_refl eq_refl))).
    intros key Hin Hc. cbn in Hin.
    repeat destruct Hin as [<- | Hin]; try contradiction;
      try (cbn; lia); exfalso;
      destruct (contains_find _ _ Hc) as [n F]; vm_compute in F; discriminate.
Defined.

Lemma calculator_result_line_witness :
  calcEvaluate "1 / 4" = [BotSay "✅ 1.0000 / 4.0000 = 0.25"].
Proof.
  exact (proj1 (calculator_result_line "1 / 4" _ _ _ "/"%char eq_refl eq_refl)).
Defined.

Lemma division_by_zero_recoverable_witness :
  calculatorLoop ["10 / 0"; "oops"]
  = ([Put calc_prompt; BotSay calc_div_by_zero;
      Put calc_prompt; BotSay calc_usage; Put calc_prompt], []).
Proof.
  rewrite (proj1 (division_by_zero_recoverable "10 / 0" ["oops"])
             _ _ eq_refl eq_refl).
  rewrite (proj1 (proj2 (division_by_zero_recoverable "oops" []))
             eq_refl eq_refl).
  reflexivity.
Defined.

Lemma running_flag_lifecycle_witness :
  exists bot' io' recorded,
    chatLoop (turns (terminal ["hi"; "bye"; "hello"])) fresh_bot
      (terminal ["hi"; "bye"; "hello"]) = Some (bot', io')
    /\ history_ bot' = (history_ fresh_bot ++ recorded)%list
    /\ running_ bot' = false
    /\ recorded = ["hi"; "bye"].
Proof.
  destruct (proj1 (proj2 (proj2 (proj2 running_flag_lifecycle))) fresh_bot
              (terminal ["hi"; "bye"; "hello"])) as (bot' & io' & H & _).
  destruct (proj2 (proj2 (proj2 (proj2 running_flag_lifecycle))) fresh_bot
              (terminal ["hi"; "bye"; "hello"]) bot' io' eq_refl H)
    as (recorded & Hh & _).
  exists bot', io', recorded. split; [exact H|]. split; [exact Hh|].
  vm_compute in H. injection H as <- <-. cbn in Hh |- *.
  split; [reflexivity | now symmetry].
Defined.

Lemma time_command_phrases_witness :
  holds_content fresh_bot
  /\ emits_date_time "what's the time?" fresh_bot (terminal []).
Proof.
  split; [apply construct_holds_content|].
  apply (proj1 (time_command_phrases "what's the time?" fresh_bot (terminal [])
                  (construct_holds_content (terminal [])))).
  cbn. tauto.
Defined.

Lemma empty_input_skipped_witness :
  loopBody fresh_bot (terminal ["   "; "hi"])
  = (Continue, (fresh_bot, prompted (terminal ["   "; "hi"]) ["hi"])).
Proof.
  exact (proj1 (empty_input_skipped fresh_bot (terminal ["   "; "hi"])
                  "   " ["hi"] eq_refl eq_refl)).
Defined.


Lemma calculator_tolerant_parse_witness :
  calcEvaluate "5  +3 apples" = calcEvaluate "5+3"
  /\ calcEvaluate "5+3" = [BotSay "✅ 5.0000 + 3.0000 = 8"].
Proof.
  assert (N5 : numeral "5" (S754_finite false 5629499534213120 (-50)))
    by (split; vm_compute; reflexivity).
  assert (N3 : numeral "3" (S754_finite false 6755399441055744 (-51)))
    by (split; vm_compute; reflexivity).
  pose proof (calculator_tolerant_parse "5" "  " "" _ "+"%char N5
                eq_refl eq_refl eq_refl) as (_ & T & _ & E).
  split; [exact (T "3" _ " apples" N3 eq_refl) | exact E].
Defined.

End Examples.

(** * Further properties *)

(** ** Durations, trimming and lowercasing *)

Section UtilMore.

(** X1.  For a duration of [sec >= 0] seconds [formatDuration] writes
    the hours, the minutes below 60 and the seconds below 60 that add up
    to [sec], as ["<h>h <m>m <s>s"]. *)
Theorem formatDuration_parts (sec : Z) :
  (0 <= sec)%Z ->
  let h := (sec / 3600)%Z in
  let m := (sec mod 3600 / 60)%Z in
  let s := (sec mod 60)%Z in
  Util.formatDuration sec
  = Str.of_Z h ++ "h " ++ Str.of_Z m ++ "m " ++ Str.of_Z s ++ "s"
  /\ (0 <= h)%Z /\ (0 <= m < 60)%Z /\ (0 <= s < 60)%Z
  /\ sec = (3600 * h + 60 * m + s)%Z.
Proof.
  intros Hs h m s.
  assert (Hh : Z.quot sec 3600 = h) by (apply Z.quot_div_nonneg; lia).
  assert (H1 : (sec - h * 3600 = sec mod 3600)%Z).
  { unfold h. pose proof (Z.div_mod sec 3600). lia. }
  assert (Hm : Z.quot (sec mod 3600) 60 = m).
  { apply Z.quot_div_nonneg; [|lia].
    pose proof (Z.mod_pos_bound sec 3600). lia. }
  assert (H2 : (sec mod 3600 - m * 60 = s)%Z).
  { unfold m, s. pose proof (Z.div_mod (sec mod 3600) 60).
    pose proof (Z.div_mod sec 3600). pose proof (Z.div_mod sec 60).
    pose proof (Z.mod_pos_bound (sec mod 3600) 60).
    pose proof (Z.mod_pos_bound sec 60). lia. }
  split.
  - unfold Util.formatDuration. cbv zeta. rewrite Hh, H1, Hm, H2. reflexivity.
  - pose proof (Z.mod_pos_bound sec 3600). pose proof (Z.mod_pos_bound sec 60).
    pose proof (Z.div_pos sec 3600).
    assert (0 <= m < 60)%Z.
    { unfold m. split; [apply Z.div_pos; lia|].
      apply Z.div_lt_upper_bound; lia. }
    repeat split; try lia.
Qed.

Lemma append_empty_r (s : string) : s ++ "" = s.
Proof. induction s as [|c s IH]; cbn; [reflexivity | now rewrite IH]. Qed.

Lemma find_last_none_all (s : string) :
  Str.find_last_not_of s Util.whitespace = None ->
  all_in Util.whitespace s = true.
Proof.
  unfold all_in.
  induction s as [|c s IH];
    cbn [Str.find_last_not_of list_ascii_of_string forallb]; [reflexivity|].
  destruct (Str.find_last_not_of s Util.whitespace); [discriminate|].
  destruct (Str.mem c Util.whitespace); [|discriminate]. intros _. now apply IH.
Qed.

(** What follows the last character outside the set is whitespace. *)
Lemma after_last_is_space (s : string) :
  forall j, Str.find_last_not_of s Util.whitespace = Some j ->
            exists trail, s = substring 0 (j + 1) s ++ trail
                          /\ all_in Util.whitespace trail = true.
Proof.
  induction s as [|c s IH]; cbn [Str.find_last_not_of]; intros j H;
    [discriminate|].
  destruct (Str.find_last_not_of s Util.whitespace) as [j'|] eqn:L.
  - injection H as <-. destruct (IH j' eq_refl) as (trail & E & A).
    exists trail. split; [|exact A].
    cbn [Nat.add substring append]. now rewrite <- E.
  - destruct (Str.mem c Util.whitespace); [discriminate|]. injection H as <-.
    exists s. split; [|now apply find_last_none_all].
    cbn [Nat.add substring]. now destruct s.
Qed.

Lemma trim_decompose (s : string) :
  forall i j,
    Str.find_first_not_of s Util.whitespace = Some i ->
    Str.find_last_not_of s Util.whitespace = Some j ->
    exists lead trail,
      s = lead ++ substring i (j - i + 1) s ++ trail
      /\ all_in Util.whitespace lead = true
      /\ all_in Util.whitespace trail = true.
Proof.
  induction s as [|c s IH];
    cbn [Str.find_first_not_of Str.find_last_not_of]; intros i j Hi Hj;
    [discriminate|].
  destruct (Str.mem c Util.whitespace) eqn:M.
  - destruct (Str.find_first_not_of s Util.whitespace) as [i'|]; [|discriminate].
    injection Hi as <-.
    destruct (Str.find_last_not_of s Util.whitespace) as [j'|]; [|discriminate].
    injection Hj as <-.
    destruct (IH i' j' eq_refl eq_refl) as (lead & trail & E & A1 & A2).
    exists (String c lead), trail. cbn [Nat.sub substring append].
    split; [now rewrite <- E|]. split; [|exact A2].
    unfold all_in in *. cbn [list_ascii_of_string forallb]. now rewrite M.
  - injection Hi as <-. rewrite Nat.sub_0_r.
    assert (H : Str.find_last_not_of (String c s) Util.whitespace = Some j)
      by (cbn [Str.find_last_not_of]; rewrite M; exact Hj).
    destruct (after_last_is_space _ _ H) as (trail & E & A).
    exists "", trail. auto.
Qed.

(** X2.  [trim] removes a run of spaces, tabs, CRs and LFs at either
    end and nothing else: the string is [lead ++ trim s ++ trail] with
    [lead] and [trail] made of those characters only, and what is kept
    is empty or starts and ends with a character outside the set. *)
Theorem trim_outer_whitespace (s : string) :
  (exists lead trail,
     s = lead ++ Util.trim s ++ trail
     /\ all_in Util.whitespace lead = true
     /\ all_in Util.whitespace trail = true)
  /\ (Util.trim s = ""
      \/ (Str.find_first_not_of (Util.trim s) Util.whitespace = Some 0
          /\ Str.find_last_not_of (Util.trim s) Util.whitespace
             = Some (String.length (Util.trim s) - 1))).
Proof.
  unfold Util.trim.
  destruct (Str.find_first_not_of s Util.whitespace) as [i|] eqn:F.
  - destruct (find_first_gives_last s i F) as [j L]. rewrite L.
    split; [exact (trim_decompose s i j F L)|]. right.
    destruct (trimmed_is_tight s i j F L) as (T1 & T2 & _). split; assumption.
  - split; [|now left]. exists s, "". cbn [append].
    split; [now rewrite append_empty_r|]. split; [|reflexivity].
    now apply all_whitespace.
Qed.

Lemma tolower_not_upper (c : ascii) : is_upper (Util.tolower c) = false.
Proof. destruct c as [[] [] [] [] [] [] [] []]; reflexivity. Qed.

Lemma tolower_fixes_others (c : ascii) :
  is_upper c = false -> Util.tolower c = c.
Proof.
  destruct c as [[] [] [] [] [] [] [] []]; intros H;
    first [reflexivity | discriminate H].
Qed.

Lemma tolower_shifts_upper (c : ascii) :
  is_upper c = true -> Util.tolower c = ascii_of_nat (nat_of_ascii c + 32).
Proof. unfold is_upper, Util.tolower. now intros ->. Qed.

(** X3.  [toLower] keeps the length, leaves no upper-case ASCII letter,
    moves each of them 32 code points up and does not touch any other
    byte: a string without upper-case letters is returned as it is. *)
Theorem toLower_letters_only (s : string) :
  String.length (Util.toLower s) = String.length s
  /\ no_upper (Util.toLower s) = true
  /\ (no_upper s = true -> Util.toLower s = s)
  /\ (forall i c, get i s = Some c ->
        get i (Util.toLower s)
        = Some (if is_upper c then ascii_of_nat (nat_of_ascii c + 32) else c)).
Proof.
  unfold no_upper. induction s as [|c s (IH1 & IH2 & IH3 & IH4)].
  - repeat split; try reflexivity. intros i c H. destruct i; discriminate H.
  - cbn [Util.toLower String.length list_ascii_of_string forallb].
    split; [now rewrite IH1|]. split; [now rewrite tolower_not_upper, IH2|].
    split.
    + intros H. apply andb_prop in H as [Hc Hs]. apply negb_true_iff in Hc.
      now rewrite (tolower_fixes_others _ Hc), (IH3 Hs).
    + intros [|i] d H; cbn [get] in *; [|now apply IH4].
      injection H as <-. destruct (is_upper c) eqn:U.
      * now rewrite (tolower_shifts_upper _ U).
      * now rewrite (tolower_fixes_others _ U).
Qed.

End UtilMore.

(** ** The text commands *)

Section TextCommands.

Lemma length_append (s t : string) :
  String.length (s ++ t) = String.length s + String.length t.
Proof. induction s as [|c s IH]; cbn; [reflexivity | now rewrite IH]. Qed.

Lemma reverse_append (s t : string) :
  Str.reverse (s ++ t) = Str.reverse t ++ Str.reverse s.
Proof.
  induction s as [|c s IH]; cbn [append Str.reverse].
  - now rewrite append_empty_r.
  - now rewrite IH, string_app_assoc.
Qed.

Lemma reverse_involutive (s : string) : Str.reverse (Str.reverse s) = s.
Proof.
  induction s as [|c s IH]; cbn [Str.reverse]; [reflexivity|].
  rewrite reverse_append, IH. reflexivity.
Qed.

Lemma reverse_length (s : string) :
  String.length (Str.reverse s) = String.length s.
Proof.
  induction s as [|c s IH]; cbn [Str.reverse String.length]; [reflexivity|].
  rewrite length_append, IH. cbn. lia.
Qed.

(** X4.  An input made of ["reverse "] and at least one more character
    is answered with the rest of the input, reversed byte by byte,
    between double quotes; the bot is unchanged.  Reversing is its own
    inverse and keeps the length. *)
Theorem reverse_command (text : string) (bot : ChatBot) (io : IO) :
  text <> "" ->
  processInput ("reverse " ++ text) bot io
  = (bot, botSay ("🔄 " ++ Str.dquote ++ Str.reverse text ++ Str.dquote) io)
  /\ Str.reverse (Str.reverse text) = text
  /\ String.length (Str.reverse text) = String.length text.
Proof.
  intros N. split; [|split; [apply reverse_involutive | apply reverse_length]].
  destruct text as [|c text]; [contradiction|].
  reflexivity.
Qed.

Lemma count_blank (b : bool) (t : string) :
  blank t = true -> count_words b t = 0.
Proof.
  revert b. induction t as [|c t IH]; intros b H; cbn [count_words];
    [reflexivity|].
  cbn [blank] in H. apply andb_prop in H as [-> H]. now apply IH.
Qed.

Lemma count_after_gap (b : bool) (gap s : string) :
  blank gap = true -> gap <> "" ->
  count_words b (gap ++ s) = count_words false s.
Proof.
  intros B N. destruct gap as [|c gap]; [contradiction|]. clear N.
  revert b c B. induction gap as [|d gap IH]; intros b c B;
    cbn [blank] in B; apply andb_prop in B as [Hc B];
    cbn [append count_words]; rewrite Hc; [reflexivity|].
  exact (IH false d B).
Qed.

Lemma count_leading_blank (lead s : string) :
  blank lead = true -> count_words false (lead ++ s) = count_words false s.
Proof.
  intros B. destruct lead as [|c lead]; [reflexivity|].
  now apply count_after_gap.
Qed.

Lemma count_inside_word (w s : string) :
  solid w = true -> count_words true (w ++ s) = count_words true s.
Proof.
  induction w as [|c w IH]; intros S; cbn [append count_words];
    [reflexivity|].
  cbn [solid] in S. apply andb_prop in S as [Hc S].
  apply negb_true_iff in Hc. rewrite Hc. now apply IH.
Qed.

Lemma count_word (w s : string) :
  solid w = true -> w <> "" ->
  count_words false (w ++ s) = S (count_words true s).
Proof.
  intros S N. destruct w as [|c w]; [contradiction|].
  cbn [solid] in S. apply andb_prop in S as [Hc S].
  apply negb_true_iff in Hc. cbn [append count_words]. rewrite Hc.
  now rewrite (count_inside_word _ _ S).
Qed.

Lemma count_spaced_words (items : list (string * string)) (trail : string) :
  separated items -> blank trail = true ->
  count_words true (spaced_words items ++ trail) = List.length items.
Proof.
  intros H B. induction H as [|[gap word] items (G1 & G2 & W1 & W2) _ IH];
    cbn [spaced_words List.length fst snd] in *.
  - now apply count_blank.
  - rewrite !string_app_assoc, (count_after_gap _ _ _ G1 G2).
    now rewrite (count_word _ _ W1 W2), IH.
Qed.

(** X5.  An input made of ["count "] and a text is answered with the
    number of words of the text: a first word, after white space or
    none, the words that follow, each after white space, and white space
    or nothing at the end give one plus the number of words that
    follow.  A text of white space only gives 0. *)
Theorem count_command (lead word trail : string)
  (items : list (string * string)) (bot : ChatBot) (io : IO) :
  blank lead = true -> solid word = true -> word <> "" ->
  separated items -> blank trail = true ->
  processInput ("count " ++ lead ++ word ++ spaced_words items ++ trail) bot io
  = (bot, botSay ("📝 Word count: " ++ Str.of_nat (S (List.length items))) io)
  /\ (lead <> "" ->
      processInput ("count " ++ lead) bot io
      = (bot, botSay ("📝 Word count: " ++ Str.of_nat 0) io)).
Proof.
  intros BL SW NW HI BT.
  assert (P : forall text, text <> "" ->
            processInput ("count " ++ text) bot io
            = (bot, botSay ("📝 Word count: "
                              ++ Str.of_nat (count_words false text)) io)).
  { intros [|c text] N; [contradiction | reflexivity]. }
  split.
  - rewrite P.
    + rewrite (count_leading_blank _ _ BL), (count_word _ _ SW NW).
      now rewrite (count_spaced_words _ _ HI BT).
    + destruct lead; [destruct word; [contradiction | discriminate]
                     | discriminate].
  - intros NL. rewrite (P _ NL). now rewrite (count_blank _ _ BL).
Qed.

End TextCommands.

(** ** What [processInput] writes *)

Section Trace.

Lemma calcEvaluate_plain (line : string) :
  Forall (fun e => plain e = true) (calcEvaluate line).
Proof.
  unfold calcEvaluate.
  destruct (parse_expression line) as [[[a op] b]|];
    [|repeat constructor].
  unfold apply_operator.
  repeat match goal with
         | |- context [if ?c then _ else _] => destruct c
         end; repeat constructor.
Qed.

Lemma calculatorLoop_plain (lines : list string) :
  Forall (fun e => plain e = true) (fst (calculatorLoop lines)).
Proof.
  induction lines as [|raw rest IH]; cbn [calculatorLoop];
    [repeat constructor|].
  destruct (is_calc_exit (Util.trim raw)); [repeat constructor|].
  destruct (calculatorLoop rest) as [evs rest']. cbn [fst] in *.
  constructor; [reflexivity|].
  apply Forall_app. split; [apply calcEvaluate_plain | exact IH].
Qed.

Lemma history_lines_plain (entries : list string) :
  forall i, Forall (fun e => plain e = true) (history_lines i entries).
Proof.
  induction entries as [|h entries IH]; intros i; cbn [history_lines];
    constructor; [reflexivity | apply IH].
Qed.

Lemma content_not_goodbye :
  forallb (fun s => negb (String.eqb s goodbye_message))
    ("" :: initJokes ++ initFacts ++ map snd initResponses)%list = true.
Proof. vm_compute. reflexivity. Qed.

Lemma nth_not_goodbye (l : list string) (n : nat) :
  incl l (initJokes ++ initFacts ++ map snd initResponses)%list ->
  plain (BotSay (nth n l "")) = true.
Proof.
  intros I. apply (proj1 (forallb_forall _ _) content_not_goodbye).
  destruct (nth_in_or_default n l "") as [H | ->]; [right; auto | now left].
Qed.

Local Ltac one_message := eexists; split; [reflexivity|]; eexists; split;
                          [reflexivity | intros _].

Local Ltac drawn_message lo hi io :=
  let C := fresh "C" in
  pose proof (randomInt_cout lo hi io) as C;
  destruct (Util.randomInt lo hi io) as [? ?]; cbn [snd] in C |- *;
  eexists; split; [cbn [botSay emit cout]; rewrite C; reflexivity|];
  eexists; split; [reflexivity|].

Local Ltac several :=
  cbn [snd botSay botSayMultiline showBanner showHelp Util.printSeparator
         emit emit_all cout];
  rewrite <- ?app_assoc; reflexivity.

(** The events a call of [processInput] appends, by branch. *)
Lemma processInput_trace (input : string) (bot : ChatBot) (io : IO) :
  exists es,
    cout (snd (processInput input bot io)) = (cout io ++ es)%list
    /\ trace_shape (holds_content bot) (route input) es.
Proof.
  unfold processInput, route.
  destruct (is_exit input).
  { exists []. split; [now rewrite app_nil_r | reflexivity]. }
  destruct (is_help input).
  { exists [ShowHelp]. split; reflexivity. }
  destruct (is_joke input).
  { drawn_message 0%Z (Z.of_nat (List.length (jokes_ bot)) - 1)%Z io.
    intros (_ & HJ & _).
    apply nth_not_goodbye. rewrite HJ. now apply incl_appl. }
  destruct (is_fact input).
  { drawn_message 0%Z (Z.of_nat (List.length (facts_ bot)) - 1)%Z io.
    intros (_ & _ & HF).
    apply nth_not_goodbye. rewrite HF. now apply incl_appr, incl_appl. }
  destruct (is_time input); [one_message; reflexivity|].
  destruct (is_flip input).
  { drawn_message 0%Z 1%Z io. intros _.
    match goal with |- context [(?r =? 0)%Z] => now destruct (r =? 0)%Z end. }
  destruct (is_roll input); [drawn_message 1%Z 6%Z io; reflexivity|].
  destruct (is_uptime input); [one_message; reflexivity|].
  destruct (is_history input).
  { unfold showHistory. destruct (history_ bot) as [|h hs] eqn:E.
    - eexists. split; [reflexivity|]. split; [discriminate|].
      repeat constructor.
    - rewrite <- E. eexists. split; [several|]. split; [discriminate|].
      constructor; [reflexivity|]. constructor; [reflexivity|].
      apply Forall_app. split; [apply history_lines_plain|].
      repeat constructor. }
  destruct (is_clear input).
  { eexists. split; [several|]. eexists _, _. split; reflexivity. }
  destruct (is_reverse input); [one_message; reflexivity|].
  destruct (is_count input); [one_message; reflexivity|].
  destruct (is_calc input).
  { unfold runCalculator.
    pose proof (calculatorLoop_plain
                  (cin (Util.printSeparator
                          (botSayMultiline calc_intro
                             (Util.printSeparator (emit (Put Str.nl) io))))))
      as P.
    destruct (calculatorLoop _) as [evs rest]. cbn [fst] in P.
    eexists. split; [several|]. exists evs. split; [reflexivity | exact P]. }
  cbn [snd]. destruct (resolve_cases input bot io) as [-> | (k & r & Hin & ->)].
  - eexists. split; [reflexivity|]. now left.
  - eexists. split; [reflexivity|]. right. exists r. split; [reflexivity|].
    intros ((PR & _) & _).
    apply (proj1 (forallb_forall _ _) content_not_goodbye).
    right. apply in_or_app. right. apply in_or_app. right.
    change r with (snd (k, r)). apply in_map.
    eapply Permutation_in; eassumption.
Qed.

(** The guard behind each branch. *)
Lemma route_guard (input : string) :
  match route input with
  | CmdExit => is_exit input = true
  | CmdHelp => is_help input = true
  | CmdJoke => is_joke input = true
  | CmdFact => is_fact input = true
  | CmdTime => is_time input = true
  | CmdFlip => is_flip input = true
  | CmdRoll => is_roll input = true
  | CmdUptime => is_uptime input = true
  | CmdHistory => is_history input = true
  | CmdClear => is_clear input = true
  | CmdReverse => is_reverse input = true
  | CmdCount => is_count input = true
  | CmdCalc => is_calc input = true
  | NotACommand => is_command input = false
  end.
Proof.
  unfold route, is_command.
  repeat match goal with
         | |- context [if ?g then _ else _] =>
             destruct g; [reflexivity|]
         end.
  reflexivity.
Qed.

Local Ltac phrases_route :=
  let H := fresh "H" in
  intros H; cbn [In] in H;
  repeat destruct H as [<- | H]; try contradiction; reflexivity.

Local Ltac guard_phrases :=
  cbn [In]; rewrite ?orb_true_iff, ?String.eqb_eq; intuition congruence.

Lemma route_exit (input : string) :
  route input = CmdExit <-> In input exit_tokens.
Proof.
  split; [|unfold exit_tokens; phrases_route].
  intros R. pose proof (route_guard input) as G. rewrite R in G.
  now apply is_exit_tokens.
Qed.

Lemma route_help (input : string) :
  route input = CmdHelp <-> In input help_phrases.
Proof.
  split; [|unfold help_phrases; phrases_route].
  intros R. pose proof (route_guard input) as G. rewrite R in G.
  revert G. unfold is_help, help_phrases. guard_phrases.
Qed.

Lemma route_clear (input : string) :
  route input = CmdClear <-> In input clear_phrases.
Proof.
  split; [|unfold clear_phrases; phrases_route].
  intros R. pose proof (route_guard input) as G. rewrite R in G.
  revert G. unfold is_clear, clear_phrases. guard_phrases.
Qed.

Lemma route_calc (input : string) :
  route input = CmdCalc <-> In input calc_phrases.
Proof.
  split; [|unfold calc_phrases; phrases_route].
  intros R. pose proof (route_guard input) as G. rewrite R in G.
  revert G. unfold is_calc, calc_phrases. guard_phrases.
Qed.

Lemma route_history (input : string) :
  route input = CmdHistory <-> In input history_phrases.
Proof.
  split; [|unfold history_phrases; phrases_route].
  intros R. pose proof (route_guard input) as G. rewrite R in G.
  revert G. unfold is_history, history_phrases. guard_phrases.
Qed.

Lemma plain_list_lacks (es : list event) (e : event) :
  Forall (fun x => plain x = true) es -> plain e = false -> ~ In e es.
Proof.
  intros F P Hin. rewrite Forall_forall in F. specialize (F e Hin). congruence.
Qed.

(** X6.  [processInput] only ever appends to the output, and it appends
    nothing exactly on an exit token: every other input gets something
    written back. *)
Theorem every_input_answered (input : string) (bot : ChatBot) (io : IO) :
  exists es,
    cout (snd (processInput input bot io)) = (cout io ++ es)%list
    /\ (es = [] <-> In input exit_tokens).
Proof.
  destruct (processInput_trace input bot io) as (es & C & T).
  exists es. split; [exact C|]. rewrite <- route_exit.
  destruct (route input); cbn [trace_shape] in T;
    try (destruct T as (msg & -> & _); split; discriminate).
  - split; auto.
  - subst es. split; discriminate.
  - destruct T as [N _]. split; [contradiction | discriminate].
  - destruct T as (code & msg & -> & _). split; discriminate.
  - destruct T as [-> | (msg & -> & _)]; split; discriminate.
Qed.

(** X7.  The help table is shown exactly on ["help"], ["manual"] and
    ["commands"]; the banner is drawn again exactly on ["clear"] and
    ["cls"]; the calculator is entered, its introduction said, exactly
    on its nine phrases. *)
Theorem presenter_commands (input : string) (bot : ChatBot) (io : IO) :
  exists es,
    cout (snd (processInput input bot io)) = (cout io ++ es)%list
    /\ (In ShowHelp es <-> In input help_phrases)
    /\ (In ShowBanner es <-> In input clear_phrases)
    /\ (In (BotSayMultiline calc_intro) es <-> In input calc_phrases).
Proof.
  destruct (processInput_trace input bot io) as (es & C & T).
  exists es. split; [exact C|].
  rewrite <- route_help, <- route_clear, <- route_calc.
  destruct (route input); cbn [trace_shape] in T;
    try (destruct T as (msg & -> & _); cbn [In];
         repeat split; intros H; try discriminate H;
         destruct H as [H | H]; try discriminate H; contradiction).
  - subst es. repeat split; intros H; try discriminate H; contradiction.
  - subst es. cbn [In]. repeat split; intros H; try discriminate H; auto;
      destruct H as [H | H]; try discriminate H; contradiction.
  - destruct T as [_ F].
    repeat split; intros H; try discriminate H;
      exfalso; revert H; now apply plain_list_lacks.
  - destruct T as (code & msg & -> & _). cbn [In].
    repeat split; intros H; try discriminate H; auto;
      repeat (destruct H as [H | H]; try discriminate H); contradiction.
  - destruct T as (evs & -> & F). cbn [In app].
    repeat split; intros H; try discriminate H; auto;
      repeat (destruct H as [H | H]; try discriminate H);
      exfalso; revert H; now apply plain_list_lacks.
  - destruct T as [-> | (msg & -> & _)]; cbn [In];
      repeat split; intros H; try discriminate H;
      destruct H as [H | H]; try discriminate H; contradiction.
Qed.

End Trace.

(** ** Starting and ending a session *)

Section SessionMore.

Lemma goodbyes_cout (io1 io2 : IO) (es : list event) :
  cout io1 = (cout io2 ++ es)%list ->
  goodbyes io1 = goodbyes io2 + List.length (filter is_goodbye es).
Proof.
  intros E. unfold goodbyes. now rewrite E, filter_app, length_app.
Qed.

Lemma plain_not_goodbye (e : event) : plain e = true -> is_goodbye e = false.
Proof.
  destruct e; cbn; try reflexivity. now intros H%negb_true_iff.
Qed.

Lemma plain_list_no_goodbye (es : list event) :
  Forall (fun e => plain e = true) es -> filter is_goodbye es = [].
Proof.
  induction 1 as [|e es P _ IH]; cbn [filter]; [reflexivity|].
  now rewrite (plain_not_goodbye _ P).
Qed.

Lemma shape_no_goodbye (content : Prop) (c : command) (es : list event) :
  content -> trace_shape content c es -> filter is_goodbye es = [].
Proof.
  intros K T.
  destruct c; cbn [trace_shape] in T;
    try (destruct T as (msg & -> & P); cbn [filter];
         now rewrite (plain_not_goodbye _ (P K))).
  - now subst es.
  - now subst es.
  - now apply plain_list_no_goodbye.
  - destruct T as (code & msg & -> & P). cbn [filter].
    now rewrite (plain_not_goodbye _ P).
  - destruct T as (evs & -> & P). cbn [filter app].
    now apply plain_list_no_goodbye.
  - destruct T as [-> | (msg & -> & P)]; cbn [filter]; [reflexivity|].
    now rewrite (plain_not_goodbye _ (P K)).
Qed.

(** Whatever the input, [processInput] does not say the goodbye. *)
Lemma processInput_goodbyes (input : string) (bot : ChatBot) (io : IO) :
  holds_content bot ->
  goodbyes (snd (processInput input bot io)) = goodbyes io.
Proof.
  intros K. destruct (processInput_trace input bot io) as (es & C & T).
  rewrite (goodbyes_cout _ _ _ C), (shape_no_goodbye _ _ _ K T). cbn. lia.
Qed.

Lemma push_history_keeps_content (input : string) (bot : ChatBot) :
  holds_content bot -> holds_content (push_history input bot).
Proof. exact (fun H => H). Qed.

Lemma goodbyes_put (text : string) (io : IO) :
  goodbyes (emit (Put text) io) = goodbyes io.
Proof.
  unfold goodbyes. cbn [emit cout]. rewrite filter_app. cbn [filter is_goodbye].
  now rewrite app_nil_r.
Qed.

Lemma goodbyes_prompted (io : IO) (rest : list string) :
  goodbyes (prompted io rest) = goodbyes io.
Proof. exact (goodbyes_put loop_prompt io). Qed.

Lemma chatLoop_goodbyes (fuel : nat) :
  forall bot io bot' io',
    holds_content bot ->
    chatLoop fuel bot io = Some (bot', io') ->
    goodbyes io' = goodbyes io.
Proof.
  induction fuel as [|fuel IH]; intros bot io bot' io' K H; [discriminate|].
  cbn [chatLoop] in H. destruct (running_ bot); [|now injection H as <- <-].
  destruct (cin io) as [|line rest] eqn:E.
  - rewrite (loopBody_end _ _ E) in H. injection H as <- <-.
    apply goodbyes_put.
  - rewrite (loopBody_line _ _ _ _ E) in H.
    destruct (String.eqb (Util.normalize line) "").
    + now rewrite (IH _ _ _ _ K H), goodbyes_prompted.
    + set (input := Util.normalize line) in *.
      pose proof (processInput_goodbyes input (push_history input bot)
                    (prompted io rest) K) as G.
      pose proof (processInput_keeps_content input (push_history input bot)
                    (prompted io rest) K) as K'.
      destruct (processInput _ _ _) as [bot2 io2]. cbn [fst snd] in G, K'.
      now rewrite (IH _ _ _ _ K' H), G, goodbyes_prompted.
Qed.

Lemma welcomeSequence_goodbyes (io : IO) :
  goodbyes (snd (welcomeSequence io)) = goodbyes io.
Proof.
  assert (G : forall io1 es,
            cout io1 = (cout io ++ es)%list -> filter is_goodbye es = [] ->
            goodbyes io1 = goodbyes io).
  { intros io1 es C N. rewrite (goodbyes_cout _ _ _ C), N. cbn. lia. }
  unfold welcomeSequence, getline.
  cbn [botSay emit cin cout steady_clock local_time rng].
  destruct (cin io) as [|l1 [|l2 rest]].
  - eapply G;
      [ cbn [snd botSay emit cout]; rewrite <- ?app_assoc; reflexivity
      | reflexivity ].
  - destruct (is_yes (Util.normalize l1));
      (eapply G;
       [ cbn [negb snd botSay emit cout cin]; rewrite <- ?app_assoc;
         reflexivity
       | reflexivity ]).
  - destruct (is_yes (Util.normalize l1));
      cbn [negb snd botSay emit cout cin];
      [destruct (is_yes (Util.normalize l2))|];
      (eapply G;
       [ cbn [negb snd showHelp Util.printSeparator botSay emit cout cin];
         rewrite <- ?app_assoc; reflexivity
       | reflexivity ]).
Qed.

Lemma showGoodbye_goodbyes (bot : ChatBot) (io : IO) :
  goodbyes (showGoodbye bot io) = S (goodbyes io).
Proof.
  unfold showGoodbye, goodbyes.
  cbn [botSay Util.printSeparator emit cout].
  rewrite !filter_app, !length_app. cbn. lia.
Qed.

(** X8.  On an input that ends, that is on any finite list of lines, a
    run returns, and it has then said the goodbye exactly once if the
    welcome was accepted, however the chat ended (an exit token, or the
    end of the input, in the chat or inside the calculator), and not at
    all if it was not.  Nothing is said of an input that goes on for
    ever without an exit token: the loop does not return on one. *)
Theorem goodbye_once (bot : ChatBot) (io : IO) :
  holds_content bot ->
  exists bot' io',
    run bot io = Some (bot', io')
    /\ goodbyes io'
       = goodbyes io
         + (if fst (welcomeSequence (showBanner io)) then 1 else 0).
Proof.
  intros K. destruct (run_terminates bot io) as [[bot' io'] R].
  exists bot', io'. split; [exact R|].
  unfold run in R.
  pose proof (welcomeSequence_goodbyes (showBanner io)) as W.
  destruct (welcomeSequence (showBanner io)) as [[|] io1]; cbn [fst snd] in *.
  - destruct (chatLoop (turns io1) bot io1) as [[bot2 io2]|] eqn:L;
      [|discriminate].
    injection R as <- <-.
    rewrite showGoodbye_goodbyes, (chatLoop_goodbyes _ _ _ _ _ K L), W.
    unfold goodbyes, showBanner. cbn [emit cout].
    rewrite filter_app, length_app. cbn. lia.
  - injection R as <- <-. rewrite W.
    unfold goodbyes, showBanner. cbn [emit cout].
    rewrite filter_app, length_app. cbn. lia.
Qed.

(** X9.  The chat starts if and only if the first answer normalises to
    ["y"] or ["yes"] and there is a second line to read.  Both lines are
    then consumed and the help table is shown exactly when the second
    answer is a yes too; after any other first answer only that line is
    consumed. *)
Theorem welcome_gate (io : IO) :
  (fst (welcomeSequence io) = true <->
   exists l1 l2 rest,
     cin io = l1 :: l2 :: rest /\ is_yes (Util.normalize l1) = true)
  /\ (forall l1 l2 rest,
        cin io = l1 :: l2 :: rest -> is_yes (Util.normalize l1) = true ->
        cin (snd (welcomeSequence io)) = rest
        /\ exists es,
             cout (snd (welcomeSequence io)) = (cout io ++ es)%list
             /\ (In ShowHelp es <-> is_yes (Util.normalize l2) = true))
  /\ (forall l1 rest,
        cin io = l1 :: rest -> is_yes (Util.normalize l1) = false ->
        cin (snd (welcomeSequence io)) = rest).
Proof.
  unfold welcomeSequence, getline.
  cbn [botSay emit cin cout steady_clock local_time rng].
  destruct (cin io) as [|l1 [|l2 rest]].
  - cbn [fst snd]. repeat split; try discriminate.
    intros (? & ? & ? & H & _). discriminate H.
  - destruct (is_yes (Util.normalize l1)) eqn:Y1;
      cbn [negb fst snd cin botSay emit]; repeat split; try discriminate.
    + intros (? & ? & ? & H & _). discriminate H.
    + intros ? ? H. congruence.
    + intros (? & ? & ? & H & _). discriminate H.
    + intros ? ? H _. congruence.
  - destruct (is_yes (Util.normalize l1)) eqn:Y1;
      cbn [negb fst snd cin botSay emit].
    + split; [|split].
      * split; [intros _; now exists l1, l2, rest | reflexivity].
      * intros ? ? ? H _. injection H as <- <- <-.
        destruct (is_yes (Util.normalize l2));
          cbn [showHelp Util.printSeparator botSay emit cin cout];
          (split; [reflexivity|]); eexists;
          (split; [rewrite <- !app_assoc; reflexivity|]); cbn [In app];
          split; intros H; try reflexivity; try discriminate H;
          [ do 4 right; left; reflexivity
          | repeat (destruct H as [H | H]; try discriminate H); contradiction ].
      * intros ? ? H Y. congruence.
    + split; [|split].
      * split; [discriminate|].
        intros (? & ? & ? & H & Y). congruence.
      * intros ? ? ? H Y. congruence.
      * intros ? ? H _. congruence.
Qed.

Lemma normalize_twice (s : string) :
  Util.normalize (Util.normalize s) = Util.normalize s.
Proof.
  unfold Util.normalize.
  now rewrite trim_toLower, trim_idempotent, toLower_idempotent.
Qed.

(** X10.  The loop only ever appends to the history, one entry at most
    per line it consumes, and every entry it appends is a non-empty
    string that normalisation leaves as it is. *)
Theorem history_append_only (fuel : nat) :
  forall bot io bot' io',
    Forall recorded_ok (history_ bot) ->
    chatLoop fuel bot io = Some (bot', io') ->
    Forall recorded_ok (history_ bot')
    /\ exists added,
         history_ bot' = (history_ bot ++ added)%list
         /\ List.length added + List.length (cin io') <= List.length (cin io).
Proof.
  induction fuel as [|fuel IH]; intros bot io bot' io' F H; [discriminate|].
  cbn [chatLoop] in H.
  assert (Z0 : Forall recorded_ok (history_ bot)
               /\ exists added,
                    history_ bot = (history_ bot ++ added)%list
                    /\ List.length added + List.length (cin io)
                       <= List.length (cin io)).
  { split; [exact F|]. exists []. now rewrite app_nil_r. }
  destruct (running_ bot); [|now injection H as <- <-].
  destruct (cin io) as [|line rest] eqn:E.
  - rewrite (loopBody_end _ _ E) in H. injection H as <- <-.
    cbn [emit cin]. rewrite E. exact Z0.
  - clear Z0. rewrite (loopBody_line _ _ _ _ E) in H.
    destruct (String.eqb_spec (Util.normalize line) "") as [Em|Ne].
    + destruct (IH _ _ _ _ F H) as (F' & added & Hh & Hl).
      split; [exact F'|]. exists added. split; [exact Hh|].
      cbn [prompted cin List.length] in *. lia.
    + set (input := Util.normalize line) in *.
      pose proof (processInput_history input (push_history input bot)
                    (prompted io rest)) as Hh.
      pose proof (processInput_consumes input (push_history input bot)
                    (prompted io rest)) as Hc.
      destruct (processInput _ _ _) as [bot2 io2]. cbn [fst snd] in Hh, Hc.
      cbn [push_history history_] in Hh.
      assert (F2 : Forall recorded_ok (history_ bot2)).
      { rewrite Hh. apply Forall_app. split; [exact F|].
        constructor; [|constructor]. split; [exact Ne | apply normalize_twice]. }
      destruct (IH _ _ _ _ F2 H) as (F' & added & Hh' & Hl).
      split; [exact F'|]. exists (input :: added).
      rewrite Hh', Hh, <- app_assoc. split; [reflexivity|].
      cbn [prompted cin List.length] in *. lia.
Qed.

End SessionMore.

(** ** The history view *)

Section HistoryView.

Lemma history_lines_numbered (entries : list string) :
  forall i,
    history_lines i entries
    = map (fun p => history_line (fst p) (snd p)) (numbered (i + 1) entries).
Proof.
  unfold numbered.
  induction entries as [|h entries IH]; intros i;
    cbn [history_lines List.length seq combine map]; [reflexivity|].
  rewrite IH. replace (S i + 1) with (S (i + 1)) by lia. reflexivity.
Qed.

Lemma history_lines_last (entries : list string) (x : string) :
  forall i,
    history_lines i (entries ++ [x])
    = (history_lines i entries
         ++ [history_line (i + List.length entries + 1) x])%list.
Proof.
  induction entries as [|h entries IH]; intros i;
    cbn [history_lines List.length app].
  - now rewrite Nat.add_0_r.
  - rewrite IH. do 4 f_equal. lia.
Qed.

Lemma history_lines_put (entries : list string) (e : event) :
  forall i, In e (history_lines i entries) -> exists text, e = Put text.
Proof.
  induction entries as [|h entries IH]; intros i; cbn [history_lines In];
    [contradiction|].
  intros [<- | H]; [now eexists | now apply (IH (S i))].
Qed.

(** What [showHistory] writes for a history that is not empty. *)
Lemma showHistory_cout (bot : ChatBot) (io : IO) :
  history_ bot <> [] ->
  let n := List.length (history_ bot) in
  let k := Nat.min 20 n in
  cout (showHistory bot io)
  = (cout io
       ++ [Put Str.nl; Put history_header]
       ++ history_lines (n - k) (skipn (n - k) (history_ bot))
       ++ [history_summary k n])%list.
Proof.
  intros N. unfold showHistory.
  destruct (history_ bot) as [|h hs] eqn:E; [contradiction|]. rewrite <- E.
  clear N E h hs. set (n := List.length (history_ bot)).
  set (k := Nat.min 20 n).
  assert (S0 : (if (20 <? n)%nat then n - 20 else 0) = n - k).
  { unfold k. destruct (Nat.ltb_spec 20 n); lia. }
  rewrite S0. replace (n - (n - k)) with k by (unfold k; lia).
  cbn [emit emit_all cout]. rewrite <- !app_assoc. reflexivity.
Qed.

(** X11.  For a history of [n >= 1] entries [showHistory] writes the
    header, then the last [min 20 n] entries, oldest first, each under
    its position in the whole history, then the line that tells how
    many are shown and the true total [n]; it reads nothing. *)
Theorem showHistory_window (bot : ChatBot) (io : IO) :
  history_ bot <> [] ->
  let n := List.length (history_ bot) in
  let k := Nat.min 20 n in
  cout (showHistory bot io)
  = (cout io
       ++ [Put Str.nl; Put history_header]
       ++ map (fun p => history_line (fst p) (snd p))
            (numbered (n - k + 1) (skipn (n - k) (history_ bot)))
       ++ [history_summary k n])%list
  /\ List.length (skipn (n - k) (history_ bot)) = k
  /\ cin (showHistory bot io) = cin io.
Proof.
  intros N n k. split; [|split].
  - rewrite <- history_lines_numbered. now apply showHistory_cout.
  - rewrite length_skipn. unfold k, n. lia.
  - unfold showHistory. now destruct (history_ bot).
Qed.

(** X12.  Asked from the chat, the history always lists the request
    itself as its last entry, under the new total: the input is recorded
    before it is dispatched, so the message for an empty history is
    never said. *)
Theorem history_lists_itself (bot : ChatBot) (io : IO) (line : string)
  (rest : list string) :
  cin io = line :: rest ->
  In (Util.normalize line) history_phrases ->
  let input := Util.normalize line in
  let n := List.length (history_ bot) + 1 in
  exists shown,
    cout (snd (snd (loopBody bot io)))
    = (cout io
         ++ [Put loop_prompt; Put Str.nl; Put history_header]
         ++ shown
         ++ [history_line n input; history_summary (Nat.min 20 n) n])%list
    /\ ~ In (BotSay "No conversation history yet!")
         (shown ++ [history_line n input;
                    history_summary (Nat.min 20 n) n])%list.
Proof.
  intros E P input n.
  assert (Ne : input <> "").
  { cbn [history_phrases In] in P. fold input in P.
    destruct P as [<- | [<- | []]]; discriminate. }
  assert (B : loopBody bot io
              = (Continue, (push_history input bot,
                            showHistory (push_history input bot)
                              (prompted io rest)))).
  { rewrite (loopBody_line _ _ _ _ E). fold input.
    destruct (String.eqb_spec input ""); [contradiction|].
    cbn [history_phrases In] in P. fold input in P.
    destruct P as [<- | [<- | []]]; reflexivity. }
  rewrite B. cbn [snd].
  assert (Nh : history_ (push_history input bot) <> []).
  { cbn [push_history history_]. now destruct (history_ bot). }
  rewrite (showHistory_cout _ _ Nh).
  cbn [push_history history_ prompted cout].
  rewrite length_app. cbn [List.length]. fold n.
  set (k := Nat.min 20 n).
  assert (Hs : n - k <= List.length (history_ bot)) by (unfold k, n; lia).
  rewrite (skipn_app (n - k)).
  replace (n - k - List.length (history_ bot)) with 0 by lia.
  cbn [skipn]. rewrite history_lines_last, length_skipn.
  replace (n - k + (List.length (history_ bot) - (n - k)) + 1) with n
    by (unfold n; lia).
  exists (history_lines (n - k) (skipn (n - k) (history_ bot))).
  split; [now rewrite <- !app_assoc|].
  intros Hin. apply in_app_or in Hin as [Hin | Hin].
  - apply history_lines_put in Hin as [text Hin]. discriminate Hin.
  - cbn [In] in Hin. destruct Hin as [Hin | [Hin | []]]; discriminate Hin.
Qed.

End HistoryView.

(** ** The calculator session *)

Section CalculatorSession.

Lemma is_calc_exit_words (raw : string) :
  is_calc_exit (Util.trim raw) = true <->
  In (Util.normalize raw) calc_exit_words.
Proof.
  unfold is_calc_exit, calc_exit_words, Util.normalize. cbn [In].
  rewrite !orb_true_iff, !String.eqb_eq. intuition congruence.
Qed.

Lemma calculatorLoop_evaluates (pre : list string) :
  Forall (fun raw => is_calc_exit (Util.trim raw) = false) pre ->
  forall tail,
    calculatorLoop (pre ++ tail)
    = ((calc_answers pre ++ fst (calculatorLoop tail))%list,
       snd (calculatorLoop tail)).
Proof.
  unfold calc_answers.
  induction 1 as [|raw pre X _ IH]; intros tail; cbn [app flat_map].
  - now destruct (calculatorLoop tail).
  - rewrite (calculatorLoop_goes_on _ _ X), IH. cbn [fst snd].
    now rewrite <- !app_assoc.
Qed.

(** X13.  The calculator evaluates line after line until a line that
    trims and lowercases to ["done"], ["exit"], ["back"] or ["quit"]:
    it then says that it exits and leaves the lines behind that one
    unread, for the chat.  Without such a line it evaluates all of them,
    prompts once more, and leaves nothing. *)
Theorem calculator_session (pre : list string) :
  Forall (fun raw => ~ In (Util.normalize raw) calc_exit_words) pre ->
  (forall word post,
     In (Util.normalize word) calc_exit_words ->
     calculatorLoop (pre ++ word :: post)
     = ((calc_answers pre
           ++ [Put calc_prompt;
               BotSay "Exiting calculator. Back to chat! 💬"])%list,
        post))
  /\ calculatorLoop pre = ((calc_answers pre ++ [Put calc_prompt])%list, []).
Proof.
  intros F.
  assert (F' : Forall (fun raw => is_calc_exit (Util.trim raw) = false) pre).
  { eapply Forall_impl; [|exact F]. intros raw N. cbv beta in N.
    rewrite <- is_calc_exit_words in N.
    now destruct (is_calc_exit (Util.trim raw)). }
  split.
  - intros word post W. apply is_calc_exit_words in W.
    rewrite (calculatorLoop_evaluates _ F'). cbn [calculatorLoop].
    now rewrite W.
  - rewrite <- (app_nil_r pre) at 1.
    now rewrite (calculatorLoop_evaluates _ F').
Qed.

Lemma apply_operator_cases (a b : Dbl.double) (op : ascii) :
  (is_operator op = true /\ (op = "/"%char -> Dbl.is_zero b = false)
   /\ exists r, apply_operator a op b = inl r)
  \/ (op = "/"%char /\ Dbl.is_zero b = true
      /\ apply_operator a op b = inr calc_div_by_zero)
  \/ (is_operator op = false
      /\ apply_operator a op b = inr (calc_unknown_operator op)).
Proof.
  unfold apply_operator, is_operator.
  destruct (Ascii.eqb_spec op "+") as [->|N1].
  { left. repeat split; [discriminate | eauto]. }
  destruct (Ascii.eqb_spec op "-") as [->|N2].
  { left. repeat split; [discriminate | eauto]. }
  destruct (Ascii.eqb_spec op "*") as [->|N3].
  { left. repeat split; [discriminate | eauto]. }
  destruct (Ascii.eqb_spec op "x") as [->|N4].
  { left. repeat split; [discriminate | eauto]. }
  destruct (Ascii.eqb_spec op "/") as [->|N5].
  - destruct (Dbl.is_zero b) eqn:Z.
    + right. left. auto.
    + left. repeat split; eauto.
  - right. right. auto.
Qed.

(** X14.  For every line the calculator evaluates the bot says one
    message.  It is a result, behind the check mark, exactly when the
    line reads as two numbers around one of [+ - * x /] and is no
    division by zero; otherwise it is a warning, and for any other
    operator character the warning names that character. *)
Theorem calculator_says_one (line : string) :
  exists msg,
    calcEvaluate line = [BotSay msg]
    /\ (prefix check_mark msg = true <->
        exists a op b,
          parse_expression line = Some (a, op, b)
          /\ is_operator op = true
          /\ (op = "/"%char -> Dbl.is_zero b = false))
    /\ (prefix check_mark msg = false -> prefix warning_mark msg = true)
    /\ (forall a op b,
          parse_expression line = Some (a, op, b) ->
          is_operator op = false -> msg = calc_unknown_operator op).
Proof.
  unfold calcEvaluate.
  destruct (parse_expression line) as [[[a op] b]|].
  - destruct (apply_operator_cases a b op)
      as [(O & Z & r & ->) | [(-> & Z & ->) | (O & ->)]].
    + eexists. split; [reflexivity|]. split; [|split].
      * split; [intros _; now exists a, op, b|].
        intros _. apply (prefix_append check_mark).
      * intros H. now rewrite (prefix_append check_mark) in H.
      * intros ? ? ? H. injection H as <- <- <-. congruence.
    + eexists. split; [reflexivity|]. split; [|split].
      * split; [discriminate|].
        intros (? & ? & ? & H & _ & Z'). injection H as <- <- <-.
        specialize (Z' eq_refl). congruence.
      * reflexivity.
      * intros ? ? ? H. injection H as <- <- <-. discriminate.
    + eexists. split; [reflexivity|]. split; [|split].
      * split; [discriminate|].
        intros (? & ? & ? & H & O' & _). injection H as <- <- <-. congruence.
      * reflexivity.
      * intros ? ? ? H. now injection H as <- <- <-.
  - eexists. split; [reflexivity|]. split; [|split].
    + split; [discriminate | intros (? & ? & ? & H & _); discriminate].
    + reflexivity.
    + discriminate.
Qed.

End CalculatorSession.

(** ** The commands that draw a number *)

Section RandomCommands.

(** A draw lies between its bounds, and moves the generator on by one. *)
Lemma randomInt_range (lo hi : Z) (io : IO) :
  (lo <= hi)%Z ->
  (lo <= fst (Util.randomInt lo hi io) <= hi)%Z.
Proof.
  intros H. unfold Util.randomInt. destruct (rng io) as [|r rs]; cbn [fst];
    [lia|].
  pose proof (Z.mod_pos_bound (Z.of_nat r) (hi - lo + 1)). lia.
Qed.

Lemma draw_says (lo hi : Z) (io : IO) (msg : Z -> string) :
  cout (let (i, io1) := Util.randomInt lo hi io in botSay (msg i) io1)
  = (cout io ++ [BotSay (msg (fst (Util.randomInt lo hi io)))])%list.
Proof.
  pose proof (randomInt_cout lo hi io) as C.
  destruct (Util.randomInt lo hi io) as [i io1]. cbn [fst snd] in *.
  cbn [botSay emit cout]. now rewrite C.
Qed.

Lemma processInput_draws (input : string) (bot : ChatBot) (io : IO) :
  (In input joke_phrases ->
   snd (processInput input bot io)
   = let (i, io1) :=
       Util.randomInt 0 (Z.of_nat (List.length (jokes_ bot)) - 1) io in
     botSay (nth (Z.to_nat i) (jokes_ bot) "") io1)
  /\ (In input fact_phrases ->
      snd (processInput input bot io)
      = let (i, io1) :=
          Util.randomInt 0 (Z.of_nat (List.length (facts_ bot)) - 1) io in
        botSay (nth (Z.to_nat i) (facts_ bot) "") io1)
  /\ (In input flip_phrases ->
      snd (processInput input bot io)
      = let (r, io1) := Util.randomInt 0 1 io in
        botSay (if (r =? 0)%Z then "Tails! 🪙" else "Heads! 🪙") io1)
  /\ (In input roll_phrases ->
      snd (processInput input bot io)
      = let (val, io1) := Util.randomInt 1 6 io in
        botSay ("🎲 You rolled a " ++ Str.of_Z val ++ "!") io1).
Proof.
  repeat split; intros H; cbn [joke_phrases fact_phrases flip_phrases
                                 roll_phrases In] in H;
    repeat destruct H as [<- | H]; try contradiction;
    unfold processInput; cbn [is_exit is_help is_joke is_fact is_time is_flip
                                is_roll String.eqb Ascii.eqb Bool.eqb orb];
    match goal with
    | |- context [Util.randomInt ?lo ?hi io] =>
        destruct (Util.randomInt lo hi io); reflexivity
    end.
Qed.

(** X15.  The commands that draw a number stay within their bounds:
    a joke phrase is answered with one of the ten jokes and a fact
    phrase with one of the ten facts, never with an element outside the
    list; a flip phrase with heads or tails; a roll phrase with a number
    from 1 to 6. *)
Theorem random_commands (input : string) (bot : ChatBot) (io : IO) :
  holds_content bot ->
  (In input joke_phrases ->
   exists joke,
     In joke initJokes
     /\ cout (snd (processInput input bot io)) = (cout io ++ [BotSay joke])%list)
  /\ (In input fact_phrases ->
      exists fact,
        In fact initFacts
        /\ cout (snd (processInput input bot io))
           = (cout io ++ [BotSay fact])%list)
  /\ (In input flip_phrases ->
      exists side,
        (side = "Heads! 🪙" \/ side = "Tails! 🪙")
        /\ cout (snd (processInput input bot io))
           = (cout io ++ [BotSay side])%list)
  /\ (In input roll_phrases ->
      exists val,
        (1 <= val <= 6)%Z
        /\ cout (snd (processInput input bot io))
           = (cout io ++ [BotSay ("🎲 You rolled a " ++ Str.of_Z val ++ "!")])%list).
Proof.
  intros (_ & HJ & HF).
  destruct (processInput_draws input bot io) as (PJ & PF & PC & PR).
  split; [|split; [|split]]; intros H.
  - rewrite (PJ H), HJ.
    rewrite (draw_says _ _ io (fun i => nth (Z.to_nat i) initJokes "")).
    eexists. split; [|reflexivity].
    apply nth_In.
    change (Z.of_nat (List.length initJokes) - 1)%Z with 9%Z.
    change (List.length initJokes) with 10.
    pose proof (randomInt_range 0 9 io). lia.
  - rewrite (PF H), HF.
    rewrite (draw_says _ _ io (fun i => nth (Z.to_nat i) initFacts "")).
    eexists. split; [|reflexivity].
    apply nth_In.
    change (Z.of_nat (List.length initFacts) - 1)%Z with 9%Z.
    change (List.length initFacts) with 10.
    pose proof (randomInt_range 0 9 io). lia.
  - rewrite (PC H).
    rewrite (draw_says _ _ io
               (fun r => if (r =? 0)%Z then "Tails! 🪙" else "Heads! 🪙")).
    eexists. split; [|reflexivity].
    destruct (fst (Util.randomInt 0 1 io) =? 0)%Z; auto.
  - rewrite (PR H).
    rewrite (draw_says _ _ io
               (fun val => "🎲 You rolled a " ++ Str.of_Z val ++ "!")).
    eexists. split; [|reflexivity]. apply randomInt_range. lia.
Qed.

End RandomCommands.

(** ** Fixed notation *)

Section FixedNotation.

Lemma fraction_table :
  forallb (fun i => let f := Dbl.pad_zeros 4 (Str.of_Z (Z.of_nat i)) in
                    (String.length f =? 4)%nat && all_digits f)
    (seq 0 (100 * 100)) = true.
Proof. vm_compute. reflexivity. Qed.

(** The fraction is written with four digits. *)
Lemma fraction_four (n : Z) :
  let f := Dbl.pad_zeros 4 (Str.of_Z (n mod 10000)) in
  String.length f = 4 /\ all_digits f = true.
Proof.
  pose proof (Z.mod_pos_bound n 10000 eq_refl) as B.
  pose proof (proj1 (forallb_forall _ _) fraction_table
                (Z.to_nat (n mod 10000))) as T.
  cbv beta zeta in T |- *. rewrite Z2Nat.id in T by lia.
  assert (I : In (Z.to_nat (n mod 10000)) (seq 0 (100 * 100)))
    by (apply in_seq; lia).
  apply T in I. apply andb_prop in I as [L D].
  split; [now apply Nat.eqb_eq | exact D].
Qed.

(** A string is what is left of it without its trailing zeros, and
    those zeros. *)
Lemma trailing_zeros (s : string) :
  exists d k,
    s = d ++ Dbl.zeros k
    /\ (d = "" \/ exists c, Str.back d = Some c /\ c <> "0"%char).
Proof.
  induction s as [|c s (d & k & E & B)].
  - now exists "", 0; auto.
  - destruct d as [|c' d'].
    + destruct (Ascii.eqb_spec c "0") as [->|N].
      * exists "", (S k). cbn in *. split; [now rewrite E | now left].
      * exists (String c ""), k. cbn in *. split; [now rewrite E|].
        right. now exists c.
    + exists (String c (String c' d')), k. split; [cbn; now rewrite E|].
      right. destruct B as [B | B]; [discriminate | exact B].
Qed.

Lemma find_last_zeros (p : string) (k : nat) :
  Str.find_last_not_of (p ++ Dbl.zeros k) "0" = Str.find_last_not_of p "0".
Proof.
  assert (Z0 : Str.find_last_not_of (Dbl.zeros k) "0" = None).
  { induction k as [|k IH]; cbn [Dbl.zeros Str.find_last_not_of];
      [reflexivity | now rewrite IH]. }
  induction p as [|c p IH]; cbn [append Str.find_last_not_of];
    [exact Z0 | now rewrite IH].
Qed.

Lemma find_last_at_back (p : string) (c : ascii) :
  Str.back p = Some c -> c <> "0"%char ->
  Str.find_last_not_of p "0" = Some (String.length p - 1).
Proof.
  intros B N. assert (M : Str.mem c "0" = false).
  { cbn. destruct (Ascii.eqb_spec c "0"); [contradiction | reflexivity]. }
  clear N. induction p as [|d p IH]; [discriminate|].
  cbn [Str.find_last_not_of String.length]. destruct p as [|e p].
  - cbn in B. injection B as ->. cbn [Str.find_last_not_of]. now rewrite M.
  - rewrite (IH B). cbn [String.length]. f_equal. lia.
Qed.

Lemma substring_prefix (p t : string) :
  substring 0 (String.length p) (p ++ t) = p.
Proof.
  rewrite <- (Nat.add_0_r (String.length p)), substring_append.
  destruct t; cbn [substring]; apply append_empty_r.
Qed.

Lemma back_digit_not_point (d : string) (c : ascii) :
  all_digits d = true -> Str.back d = Some c -> c <> "."%char.
Proof.
  unfold all_digits. induction d as [|e d IH]; [discriminate|].
  cbn [list_ascii_of_string forallb]. intros H B.
  apply andb_prop in H as [He Hd]. destruct d as [|e' d'].
  - cbn in B. injection B as ->. intros ->. discriminate He.
  - now apply IH.
Qed.

Lemma all_digits_append (d z : string) :
  all_digits (d ++ z) = true -> all_digits d = true.
Proof.
  unfold all_digits. induction d as [|c d IH]; [reflexivity|].
  cbn [append list_ascii_of_string forallb]. intros H.
  apply andb_prop in H as [-> H]. now apply IH.
Qed.

Lemma zeros_length (k : nat) : String.length (Dbl.zeros k) = k.
Proof. induction k; cbn; congruence. Qed.

(** Stripping a number written as [whole.fraction]. *)
Lemma strip_fraction (whole d : string) (k : nat) :
  all_digits d = true ->
  (d = "" \/ exists c, Str.back d = Some c /\ c <> "0"%char) ->
  strip_trailing_zeros (whole ++ "." ++ d ++ Dbl.zeros k)
  = whole ++ match d with "" => "" | _ => "." ++ d end.
Proof.
  intros D B. unfold strip_trailing_zeros.
  destruct (find_point whole (d ++ Dbl.zeros k)) as [n ->].
  destruct B as [-> | (c & B & N)].
  - replace (whole ++ "." ++ "" ++ Dbl.zeros k)
      with ((whole ++ ".") ++ Dbl.zeros k) by now rewrite string_app_assoc.
    rewrite find_last_zeros.
    assert (Bk : Str.back (whole ++ ".") = Some "."%char)
      by now rewrite back_append.
    rewrite (find_last_at_back _ _ Bk) by discriminate.
    unfold Str.substr.
    assert (L : String.length (whole ++ ".") - 1 + 1
                = String.length (whole ++ ".")).
    { rewrite length_append. cbn. lia. }
    rewrite L, substring_prefix, Bk, pop_back_append by discriminate.
    reflexivity.
  - assert (Nd : d <> "") by (intros ->; discriminate).
    replace (whole ++ "." ++ d ++ Dbl.zeros k)
      with ((whole ++ "." ++ d) ++ Dbl.zeros k)
      by now rewrite !string_app_assoc.
    rewrite find_last_zeros.
    assert (Bk : Str.back (whole ++ "." ++ d) = Some c).
    { rewrite back_append; [|now destruct d]. cbn [append].
      destruct d as [|e d]; [contradiction | exact B]. }
    rewrite (find_last_at_back _ _ Bk N).
    unfold Str.substr.
    assert (L : String.length (whole ++ "." ++ d) - 1 + 1
                = String.length (whole ++ "." ++ d)).
    { rewrite length_append. cbn. lia. }
    rewrite L, substring_prefix, Bk.
    pose proof (back_digit_not_point _ _ D B) as Np.
    destruct d as [|e d]; [contradiction|].
    destruct c as [[] [] [] [] [] [] [] []]; try reflexivity.
    now elim Np.
Qed.

(** X16.  A zero or finite number goes out in fixed notation as a whole
    part, a point and exactly four decimal digits.  Stripping it, as the
    result line is stripped, removes the trailing zeros of the decimals
    and the point with them when no decimal is left: ["5.2500"] becomes
    ["5.25"] and ["5.0000"] becomes ["5"]; the whole part is never
    touched. *)
Theorem fixed_notation_four_decimals (x : Dbl.double) :
  is_finite x = true ->
  exists whole decimals k,
    Dbl.put_fixed4 x = whole ++ "." ++ decimals ++ Dbl.zeros k
    /\ String.length decimals + k = 4
    /\ all_digits decimals = true
    /\ (decimals = "" \/ exists c, Str.back decimals = Some c /\ c <> "0"%char)
    /\ strip_trailing_zeros (Dbl.put_fixed4 x)
       = whole ++ match decimals with "" => "" | _ => "." ++ decimals end.
Proof.
  intros F.
  assert (G : forall whole frac,
            String.length frac = 4 -> all_digits frac = true ->
            exists whole' decimals k,
              whole ++ "." ++ frac = whole' ++ "." ++ decimals ++ Dbl.zeros k
              /\ String.length decimals + k = 4
              /\ all_digits decimals = true
              /\ (decimals = ""
                  \/ exists c, Str.back decimals = Some c /\ c <> "0"%char)
              /\ strip_trailing_zeros (whole ++ "." ++ frac)
                 = whole' ++ match decimals with
                             | "" => ""
                             | _ => "." ++ decimals
                             end).
  { intros whole frac L D.
    destruct (trailing_zeros frac) as (d & k & E & B). subst frac.
    pose proof (all_digits_append _ _ D) as Dd.
    exists whole, d, k. split; [reflexivity|].
    split; [now rewrite length_append, zeros_length in L|].
    split; [exact Dd|]. split; [exact B|]. now apply strip_fraction. }
  destruct x as [neg | | | neg m e]; try discriminate F.
  - destruct neg; [apply (G "-0" "0000") | apply (G "0" "0000")];
      reflexivity.
  - unfold Dbl.put_fixed4.
    set (n := Dbl.scaled_round (Z.pos m) e 4).
    destruct (fraction_four n) as [L D].
    destruct (G (Dbl.sign_text neg ++ Str.of_Z (n / 10000))
                (Dbl.pad_zeros 4 (Str.of_Z (n mod 10000))) L D)
      as (whole & decimals & k & E & R).
    exists whole, decimals, k.
    rewrite !string_app_assoc in E, R. rewrite E. split; [reflexivity|].
    rewrite <- E. exact R.
Qed.

End FixedNotation.

(** ** Numbers the calculator can meet *)

Section NoNaN.

Variables prec emax : Z.

Lemma iter_pos_invariant {A : Type} (f : A -> A) (P : A -> Prop) :
  (forall x, P x -> P (f x)) ->
  forall p x, P x -> P (iter_pos f p x).
Proof.
  intros Hf. induction p as [p IH | p IH |]; intros x Hx; cbn [iter_pos]; auto.
Qed.

Lemma shr_1_nonneg (mrs : shr_record) :
  (0 <= shr_m mrs)%Z -> (0 <= shr_m (shr_1 mrs))%Z.
Proof.
  destruct mrs as [m r s]. cbn [shr_m shr_1].
  destruct m as [|[p|p|]|[p|p|]]; cbn [shr_m]; lia.
Qed.

Lemma shr_fexp_nonneg (m e : Z) (l : location) :
  (0 <= m)%Z -> (0 <= shr_m (fst (shr_fexp prec emax m e l)))%Z.
Proof.
  intros H. unfold shr_fexp, shr.
  assert (H0 : (0 <= shr_m (shr_record_of_loc m l))%Z)
    by (destruct l as [|[]]; exact H).
  destruct (fexp prec emax (Zdigits2 m + e) - e)%Z as [|p|p]; cbn [fst];
    try exact H0.
  now apply iter_pos_invariant; [exact shr_1_nonneg|].
Qed.

Lemma round_nearest_even_nonneg (m : Z) (l : location) :
  (0 <= m)%Z -> (0 <= round_nearest_even m l)%Z.
Proof.
  intros H. unfold round_nearest_even.
  destruct l as [|[]]; try destruct (Z.even m); lia.
Qed.

(** Rounding a non-negative mantissa never gives NaN. *)
Lemma binary_round_aux_not_nan (sx : bool) (mx ex : Z) (lx : location) :
  (0 <= mx)%Z -> binary_round_aux prec emax sx mx ex lx <> S754_nan.
Proof.
  intros H. unfold binary_round_aux.
  pose proof (shr_fexp_nonneg mx ex lx H) as H1.
  destruct (shr_fexp prec emax mx ex lx) as [mrs' e']. cbn [fst] in H1.
  pose proof (shr_fexp_nonneg _ e' loc_Exact
                (round_nearest_even_nonneg _ (loc_of_shr_record mrs') H1))
    as H2.
  destruct (shr_fexp prec emax _ e' loc_Exact) as [mrs'' e'']. cbn [fst] in H2.
  destruct (shr_m mrs'') as [|p|p]; [discriminate | | lia].
  destruct (e'' <=? emax - prec)%Z; discriminate.
Qed.

Lemma binary_round_not_nan (sx : bool) (mx : positive) (ex : Z) :
  binary_round prec emax sx mx ex <> S754_nan.
Proof.
  unfold binary_round. destruct (shl_align mx ex _) as [mz ez].
  now apply binary_round_aux_not_nan.
Qed.

Lemma binary_normalize_not_nan (m e : Z) (szero : bool) :
  binary_normalize prec emax m e szero <> S754_nan.
Proof.
  unfold binary_normalize.
  destruct m; [discriminate | apply binary_round_not_nan ..].
Qed.

Lemma SFadd_not_nan (x y : spec_float) :
  is_finite x = true -> is_finite y = true -> SFadd prec emax x y <> S754_nan.
Proof.
  destruct x as [[]| | |sx mx ex], y as [[]| | |sy my ey];
    try discriminate; intros _ _; cbn [SFadd]; try discriminate;
    apply binary_normalize_not_nan.
Qed.

Lemma SFsub_not_nan (x y : spec_float) :
  is_finite x = true -> is_finite y = true -> SFsub prec emax x y <> S754_nan.
Proof.
  destruct x as [[]| | |sx mx ex], y as [[]| | |sy my ey];
    try discriminate; intros _ _; cbn [SFsub]; try discriminate;
    apply binary_normalize_not_nan.
Qed.

Lemma SFmul_not_nan (x y : spec_float) :
  is_finite x = true -> is_finite y = true -> SFmul prec emax x y <> S754_nan.
Proof.
  destruct x as [sx| | |sx mx ex], y as [sy| | |sy my ey];
    try discriminate; intros _ _; cbn [SFmul]; try discriminate.
  apply binary_round_aux_not_nan. lia.
Qed.

Lemma div_core_nonneg (m1 m2 : positive) (e1 e2 : Z) :
  (0 <= fst (fst (SFdiv_core_binary prec emax (Zpos m1) e1 (Zpos m2) e2)))%Z.
Proof.
  unfold SFdiv_core_binary.
  set (s := (e1 - e2 - _)%Z).
  set (m' := match s with
             | Zpos _ => Z.shiftl (Zpos m1) s
             | Z0 => Zpos m1
             | Zneg _ => Z0
             end).
  assert (Hm : (0 <= m')%Z).
  { unfold m'. destruct s; try lia. apply Z.shiftl_nonneg. lia. }
  pose proof (Z.div_pos m' (Zpos m2) Hm eq_refl) as Hq.
  unfold Z.div in Hq. destruct (Z.div_eucl m' (Zpos m2)) as [q r].
  exact Hq.
Qed.

(** Dividing by a number that is not zero never gives NaN. *)
Lemma SFdiv_not_nan (x : spec_float) (sy : bool) (my : positive) (ey : Z) :
  is_finite x = true ->
  SFdiv prec emax x (S754_finite sy my ey) <> S754_nan.
Proof.
  destruct x as [sx| | |sx mx ex]; try discriminate; intros _; cbn [SFdiv].
  pose proof (div_core_nonneg mx my ex ey) as H.
  destruct (SFdiv_core_binary prec emax (Zpos mx) ex (Zpos my) ey)
    as [[mz ez] lz]. cbn [fst] in H.
  now apply binary_round_aux_not_nan.
Qed.

End NoNaN.

Section CalculatorNumbers.

Lemma of_decimal_not_nan (neg : bool) (m : positive) (nd x : Z) :
  Dbl.of_decimal neg m nd x <> S754_nan.
Proof.
  unfold Dbl.of_decimal.
  destruct (400 <? x)%Z; [discriminate|].
  destruct (x + nd <? -400)%Z; [discriminate|].
  destruct (Z.leb_spec 0 x) as [Hx|Hx]; [apply binary_round_not_nan|].
  assert (P : exists p, (10 ^ (- x))%Z = Zpos p).
  { pose proof (Z.pow_pos_nonneg 10 (- x)) as Hp.
    destruct (10 ^ (- x))%Z as [|p|p]; [lia | now exists p | lia]. }
  destruct P as [p ->].
  pose proof (div_core_nonneg Dbl.prec Dbl.emax m p 0 0) as H.
  destruct (SFdiv_core_binary Dbl.prec Dbl.emax (Zpos m) 0 (Zpos p) 0)
    as [[mz ez] lz]. cbn [fst] in H.
  now apply binary_round_aux_not_nan.
Qed.

(** What [strtod] returns is a zero or a finite number. *)
Lemma strtod_finite (field : string) (v : Dbl.double) :
  Dbl.strtod field = Some v -> is_finite v = true.
Proof.
  unfold Dbl.strtod.
  destruct (Dbl.split_sign field) as [neg s1].
  destruct (Dbl.span_digits s1) as [ip s2].
  destruct (match s2 with
            | String "."%char r => Dbl.span_digits r
            | _ => ("", s2)
            end) as [fp s3].
  destruct (String.length ip + String.length fp =? 0)%nat; [discriminate|].
  set (digits := ip ++ fp).
  assert (F : forall e10 v,
            match Dbl.digits_value 0 digits with
            | Zpos p =>
                match Dbl.of_decimal neg p (Z.of_nat (String.length digits))
                        (e10 - Z.of_nat (String.length fp)) with
                | S754_infinity _ => None
                | w => Some w
                end
            | _ => Some (S754_zero neg)
            end = Some v -> is_finite v = true).
  { intros e10 w. destruct (Dbl.digits_value 0 digits) as [|p|p];
      try (intros H; now injection H as <-).
    pose proof (of_decimal_not_nan neg p (Z.of_nat (String.length digits))
                  (e10 - Z.of_nat (String.length fp))) as N.
    destruct (Dbl.of_decimal _ _ _ _) as [| | |]; intros H;
      try discriminate H; first [now injection H as <- | now elim N]. }
  destruct s3 as [|c r]; [apply F|].
  destruct (Ascii.eqb c "e" || Ascii.eqb c "E"); [|discriminate].
  destruct (Dbl.split_sign r) as [eneg r1].
  destruct (Dbl.span_digits r1) as [ed r2].
  destruct ed as [|d ed]; [discriminate|].
  destruct r2; [apply F | discriminate].
Qed.

Lemma get_double_finite (s rest : string) (v : Dbl.double) :
  Dbl.get_double s = Some (v, rest) -> is_finite v = true.
Proof.
  unfold Dbl.get_double.
  destruct (Dbl.extract_float (Dbl.skipws s)) as [field r].
  destruct (Dbl.strtod field) as [w|] eqn:S; [|discriminate].
  intros H. injection H as <- _. exact (strtod_finite _ _ S).
Qed.

Lemma parse_expression_finite (line : string) (a b : Dbl.double) (op : ascii) :
  parse_expression line = Some (a, op, b) ->
  is_finite a = true /\ is_finite b = true.
Proof.
  unfold parse_expression.
  destruct (Dbl.get_double line) as [[a' r1]|] eqn:A; [|discriminate].
  destruct (Dbl.get_char r1) as [[op' r2]|]; [|discriminate].
  destruct (Dbl.get_double r2) as [[b' r3]|] eqn:B; [|discriminate].
  intros H. injection H as <- _ <-.
  split; eapply get_double_finite; eassumption.
Qed.

(** X17.  The operands the calculator reads are zeros or finite
    numbers, never an infinity or a NaN, and no result it computes is a
    NaN: the test for a zero divisor keeps [0 / 0] out, the one
    operation that would give one.  The result line never shows
    ["nan"]. *)
Theorem calculator_never_nan (line : string) (a b r : Dbl.double)
  (op : ascii) :
  parse_expression line = Some (a, op, b) ->
  apply_operator a op b = inl r ->
  is_finite a = true /\ is_finite b = true
  /\ r <> S754_nan
  /\ Dbl.put_fixed4 r <> "nan".
Proof.
  intros P A. destruct (parse_expression_finite _ _ _ _ P) as [Fa Fb].
  assert (N : r <> S754_nan).
  { unfold apply_operator in A.
    destruct (Ascii.eqb op "+");
      [injection A as <-; now apply SFadd_not_nan|].
    destruct (Ascii.eqb op "-");
      [injection A as <-; now apply SFsub_not_nan|].
    destruct (Ascii.eqb op "*");
      [injection A as <-; now apply SFmul_not_nan|].
    destruct (Ascii.eqb op "x");
      [injection A as <-; now apply SFmul_not_nan|].
    destruct (Ascii.eqb op "/"); [|discriminate].
    destruct (Dbl.is_zero b) eqn:Z; [discriminate|]. injection A as <-.
    destruct b as [[]| | |sb mb eb]; try discriminate.
    now apply SFdiv_not_nan. }
  repeat split; try assumption.
  destruct r as [[]|[]| |neg m e]; try discriminate; [now elim N|].
  intros E. unfold Dbl.put_fixed4 in E.
  destruct (find_point (Dbl.sign_text neg
                          ++ Str.of_Z (Dbl.scaled_round (Z.pos m) e 4 / 10000))
              (Dbl.pad_zeros 4
                 (Str.of_Z (Dbl.scaled_round (Z.pos m) e 4 mod 10000))))
    as [k F].
  rewrite string_app_assoc, E in F. discriminate F.
Qed.

End CalculatorNumbers.

(** ** Reaching the lexicon *)

Section Lexicon.

Lemma qualifies_dec (input key : string) :
  {qualifies input key} + {~ qualifies input key}.
Proof.
  unfold qualifies. destruct (Str.find input key) as [n|] eqn:F.
  - destruct (le_dec 3 (String.length key)) as [L|L].
    + left. split; [exact (find_contains _ _ _ F) | exact L].
    + right. tauto.
  - right. intros [C _]. destruct (contains_find _ _ C) as [n E]. congruence.
Qed.

Lemma partial_match_skip (input key response : string) (m : Umap.t) :
  ~ qualifies input key ->
  partial_match input ((key, response) :: m) = partial_match input m.
Proof.
  intros N. cbn [partial_match].
  destruct (Str.find input key) as [n|] eqn:F; [|reflexivity].
  destruct (Nat.leb_spec 3 (String.length key)) as [L|L]; [|reflexivity].
  elim N. split; [exact (find_contains _ _ _ F) | exact L].
Qed.

Lemma partial_match_take (input key response : string) (m : Umap.t) :
  qualifies input key ->
  partial_match input ((key, response) :: m) = Some response.
Proof.
  intros [C L]. cbn [partial_match].
  destruct (contains_find _ _ C) as [n ->].
  now destruct (Nat.leb_spec 3 (String.length key)); [|lia].
Qed.

(** X18.  The partial-match scan answers with the first entry, in the
    iteration order of the map, whose key is at least 3 characters long
    and occurs in the input; entries before it are passed over and
    entries after it are not looked at.  It finds nothing exactly when
    no entry qualifies. *)
Theorem partial_match_first (input : string) (m : Umap.t) :
  (forall response,
     partial_match input m = Some response <->
     exists before key after,
       m = (before ++ (key, response) :: after)%list
       /\ qualifies input key
       /\ Forall (fun entry => ~ qualifies input (fst entry)) before)
  /\ (partial_match input m = None <->
      Forall (fun entry => ~ qualifies input (fst entry)) m).
Proof.
  induction m as [|[k v] m [IH1 IH2]].
  - split; [intros r; split; [discriminate|] | split; [constructor | reflexivity]].
    intros (before & ? & ? & E & _). now destruct before.
  - destruct (qualifies_dec input k) as [Q|Q].
    + rewrite (partial_match_take _ _ v _ Q). split.
      * intros r. split.
        -- intros H. injection H as <-. exists [], k, m. auto.
        -- intros ([|[k' v'] before] & key & after & E & Qk & F);
             cbn [app] in E; injection E as -> -> ->; [reflexivity|].
           inversion F; subst. contradiction.
      * split; [discriminate|]. intros F. inversion F; subst. contradiction.
    + rewrite (partial_match_skip _ _ v _ Q). split.
      * intros r. rewrite IH1. split.
        -- intros (before & key & after & -> & Qk & F).
           exists ((k, v) :: before), key, after. auto.
        -- intros ([|[k' v'] before] & key & after & E & Qk & F);
             cbn [app] in E; injection E as -> -> ->; [contradiction|].
           inversion F; subst. now exists before, key, after.
      * rewrite IH2. split; [now constructor | intros F; now inversion F].
Qed.

Lemma keys_in_normal_form :
  forallb (fun k => String.eqb (Util.normalize k) k && negb (String.eqb k ""))
    (Umap.keys initResponses ++ Umap.keys initAliases)%list = true.
Proof. vm_compute. reflexivity. Qed.

Lemma key_normal (k : string) :
  In k (Umap.keys initResponses ++ Umap.keys initAliases)%list ->
  Util.normalize k = k /\ k <> "".
Proof.
  intros H. apply (proj1 (forallb_forall _ _) keys_in_normal_form) in H.
  apply andb_prop in H as [H1 H2]. split; [now apply String.eqb_eq|].
  apply negb_true_iff in H2. now apply String.eqb_neq.
Qed.

Lemma loopBody_dispatch (bot : ChatBot) (io : IO) (line : string)
  (rest : list string) :
  cin io = line :: rest -> Util.normalize line <> "" ->
  loopBody bot io
  = (Continue,
     processInput (Util.normalize line)
       (push_history (Util.normalize line) bot) (prompted io rest)).
Proof.
  intros E N. rewrite (loopBody_line _ _ _ _ E).
  now destruct (String.eqb_spec (Util.normalize line) "").
Qed.

(** X19.  Every canonical phrase and every alias of the fixed data is
    in normal form and not empty, so each can be typed: a line that
    normalises to a canonical phrase, whatever its letter case and the
    white space around it, is recorded and answered with that phrase's
    response, and a line that normalises to an alias with the response
    of the alias's target. *)
Theorem typed_phrase_answered (bot : ChatBot) (io : IO) (line : string)
  (rest : list string) :
  holds_lexicon bot ->
  cin io = line :: rest ->
  (forall P r,
     In (P, r) initResponses -> Util.normalize line = P ->
     loopBody bot io
     = (Continue, (push_history P bot, botSay r (prompted io rest))))
  /\ (forall A T,
        In (A, T) initAliases -> Util.normalize line = A ->
        exists r,
          In (T, r) initResponses
          /\ loopBody bot io
             = (Continue, (push_history A bot, botSay r (prompted io rest))))
  /\ (forall k, In k (Umap.keys initResponses ++ Umap.keys initAliases)%list ->
                Util.normalize k = k /\ k <> "").
Proof.
  intros L E.
  assert (L' : forall input, holds_lexicon (push_history input bot))
    by (intros input; exact L).
  split; [|split; [|exact key_normal]].
  - intros P r Hin N.
    assert (Hk : In P (Umap.keys initResponses ++ Umap.keys initAliases)%list).
    { apply in_or_app. left. unfold Umap.keys.
      change P with (fst (P, r)). now apply in_map. }
    destruct (key_normal _ Hk) as [_ Ne].
    rewrite (loopBody_dispatch _ _ _ _ E) by congruence. rewrite N.
    pose proof (proj1 (forallb_forall _ _) canonical_phrases_pass _ Hin) as H.
    cbn [fst] in H. apply andb_prop in H as [H1 H2].
    apply negb_true_iff in H1. rewrite (processInput_resolve _ _ _ H1).
    unfold resolve.
    rewrite (lexicon_aliases _ P (L' P)), (lexicon_responses _ P (L' P)).
    destruct (Umap.find P initAliases); [discriminate|].
    now rewrite (In_find _ _ _ initResponses_keys_distinct Hin).
  - intros A T Hin N.
    assert (Hk : In A (Umap.keys initResponses ++ Umap.keys initAliases)%list).
    { apply in_or_app. right. unfold Umap.keys.
      change A with (fst (A, T)). now apply in_map. }
    destruct (key_normal _ Hk) as [_ Ne].
    pose proof (proj1 (forallb_forall _ _) aliases_pass _ Hin) as H.
    cbn [fst snd] in H. apply andb_prop in H as [H1 H2].
    apply negb_true_iff in H1.
    destruct (Umap.find T initResponses) as [r|] eqn:R; [|discriminate].
    exists r. split; [now apply find_In|].
    rewrite (loopBody_dispatch _ _ _ _ E) by congruence. rewrite N.
    rewrite (processInput_resolve _ _ _ H1). unfold resolve.
    rewrite (lexicon_aliases _ A (L' A)).
    rewrite (In_find _ _ _ initAliases_keys_distinct Hin).
    now rewrite (lexicon_responses _ T (L' A)), R.
Qed.

End Lexicon.

(** ** Instances *)

Section MoreExamples.

Lemma formatDuration_parts_witness :
  Util.formatDuration 3661 = "1h 1m 1s".
Proof.
  assert (P : (0 <= 3661)%Z) by lia.
  exact (proj1 (formatDuration_parts 3661 P)).
Defined.

Lemma toLower_letters_only_witness :
  Util.toLower "chat bot 9" = "chat bot 9".
Proof.
  exact (proj1 (proj2 (proj2 (toLower_letters_only "chat bot 9"))) eq_refl).
Defined.

Lemma reverse_command_witness :
  processInput "reverse abc" fresh_bot (terminal [])
  = (fresh_bot,
     botSay ("🔄 " ++ Str.dquote ++ "cba" ++ Str.dquote) (terminal [])).
Proof.
  assert (N : "abc" <> "") by discriminate.
  exact (proj1 (reverse_command "abc" fresh_bot (terminal []) N)).
Defined.

Lemma count_command_witness :
  processInput "count   the quick   fox " fresh_bot (terminal [])
  = (fresh_bot, botSay "📝 Word count: 3" (terminal []))
  /\ processInput "count   " fresh_bot (terminal [])
     = (fresh_bot, botSay "📝 Word count: 0" (terminal [])).
Proof.
  assert (N : "the" <> "") by discriminate.
  assert (S : separated [(" ", "quick"); ("   ", "fox")]).
  { repeat constructor; cbn; discriminate. }
  assert (M : "  " <> "") by discriminate.
  pose proof (count_command "  " "the" " " [(" ", "quick"); ("   ", "fox")]
                fresh_bot (terminal []) eq_refl eq_refl N S eq_refl) as [A B].
  split; [exact A | exact (B M)].
Defined.

Lemma goodbye_once_witness :
  exists bot' io',
    run fresh_bot (terminal ["y"; "n"; "hi"; "bye"]) = Some (bot', io')
    /\ goodbyes io' = 1.
Proof.
  destruct (goodbye_once fresh_bot (terminal ["y"; "n"; "hi"; "bye"])
              (construct_holds_content (terminal [])))
    as (bot' & io' & R & G).
  exists bot', io'. split; [exact R | exact G].
Defined.

Lemma welcome_gate_witness :
  fst (welcomeSequence (terminal ["yes"; "no"])) = true.
Proof.
  apply (proj1 (welcome_gate (terminal ["yes"; "no"]))).
  exists "yes", "no", []. split; reflexivity.
Defined.

Lemma history_append_only_witness :
  exists bot' io' added,
    chatLoop 5 fresh_bot (terminal ["hi"; " "; "Joke"]) = Some (bot', io')
    /\ history_ bot' = added
    /\ Forall recorded_ok added.
Proof.
  destruct (chatLoop_terminates 5 fresh_bot (terminal ["hi"; " "; "Joke"]))
    as [[bot' io'] H]; [cbn; lia|].
  destruct (history_append_only 5 fresh_bot (terminal ["hi"; " "; "Joke"])
              bot' io' (Forall_nil _) H) as (F & added & E & _).
  exists bot', io', added. split; [exact H|]. split; [exact E|].
  change (history_ bot' = added) in E. rewrite <- E. exact F.
Defined.

Lemma showHistory_window_witness :
  cout (showHistory (push_history "b" (push_history "a" fresh_bot))
          (terminal []))
  = [Put Str.nl; Put history_header; history_line 1 "a"; history_line 2 "b";
     history_summary 2 2].
Proof.
  assert (N : history_ (push_history "b" (push_history "a" fresh_bot)) <> [])
    by discriminate.
  exact (proj1 (showHistory_window
                  (push_history "b" (push_history "a" fresh_bot))
                  (terminal []) N)).
Defined.

Lemma history_lists_itself_witness :
  exists shown,
    cout (snd (snd (loopBody fresh_bot (terminal [" History "]))))
    = ([Put loop_prompt; Put Str.nl; Put history_header]
         ++ shown
         ++ [history_line 1 "history"; history_summary 1 1])%list.
Proof.
  destruct (history_lists_itself fresh_bot (terminal [" History "])
              " History " [] eq_refl (or_introl eq_refl)) as (shown & E & _).
  exists shown. exact E.
Defined.

Lemma calculator_session_witness :
  calculatorLoop ["1 + 1"; "oops"; " Done "; "hi"]
  = ([Put calc_prompt; BotSay "✅ 1.0000 + 1.0000 = 2";
      Put calc_prompt; BotSay calc_usage;
      Put calc_prompt; BotSay "Exiting calculator. Back to chat! 💬"],
     ["hi"]).
Proof.
  assert (F : Forall (fun raw => ~ In (Util.normalize raw) calc_exit_words)
                ["1 + 1"; "oops"]).
  { repeat constructor; intros H; vm_compute in H;
      repeat destruct H as [H | H]; try discriminate H; exact H. }
  assert (W : In (Util.normalize " Done ") calc_exit_words)
    by (left; reflexivity).
  exact (proj1 (calculator_session ["1 + 1"; "oops"] F) " Done " ["hi"] W).
Defined.

Lemma calculator_says_one_witness :
  exists msg,
    calcEvaluate "2 * 3" = [BotSay msg] /\ prefix check_mark msg = true.
Proof.
  destruct (calculator_says_one "2 * 3") as (msg & E & P & _).
  exists msg. split; [exact E|]. apply P.
  eexists _, "*"%char, _. split; [reflexivity|].
  split; [reflexivity | discriminate].
Defined.

Lemma random_commands_witness :
  exists val,
    (1 <= val <= 6)%Z
    /\ cout (snd (processInput "roll" fresh_bot (terminal [])))
       = [BotSay ("🎲 You rolled a " ++ Str.of_Z val ++ "!")].
Proof.
  exact (proj2 (proj2 (proj2
           (random_commands "roll" fresh_bot (terminal [])
              (construct_holds_content (terminal [])))))
           (or_introl eq_refl)).
Defined.

Lemma fixed_notation_four_decimals_witness :
  Dbl.put_fixed4 (S754_finite false 21 (-2)) = "5.2500"
  /\ exists whole decimals k,
       Dbl.put_fixed4 (S754_finite false 21 (-2))
       = whole ++ "." ++ decimals ++ Dbl.zeros k
       /\ String.length decimals + k = 4
       /\ all_digits decimals = true
       /\ (decimals = ""
           \/ exists c, Str.back decimals = Some c /\ c <> "0"%char)
       /\ strip_trailing_zeros (Dbl.put_fixed4 (S754_finite false 21 (-2)))
          = whole ++ match decimals with "" => "" | _ => "." ++ decimals end.
Proof.
  split; [reflexivity|].
  exact (fixed_notation_four_decimals (S754_finite false 21 (-2)) eq_refl).
Defined.

Lemma calculator_never_nan_witness :
  exists a b r,
    parse_expression "1 / 3" = Some (a, "/"%char, b)
    /\ apply_operator a "/" b = inl r
    /\ is_finite a = true /\ is_finite b = true
    /\ r <> S754_nan
    /\ Dbl.put_fixed4 r <> "nan".
Proof.
  eexists _, _, _. split; [reflexivity|]. split; [reflexivity|].
  exact (calculator_never_nan "1 / 3" _ _ _ "/"%char eq_refl eq_refl).
Defined.

Lemma partial_match_first_witness :
  partial_match "well hello there"
    [("hi", "A"); ("xyz", "B"); ("hello", "C"); ("there", "D")]
  = Some "C".
Proof.
  apply (proj1 (partial_match_first "well hello there"
                  [("hi", "A"); ("xyz", "B"); ("hello", "C"); ("there", "D")])).
  exists [("hi", "A"); ("xyz", "B")], "hello", [("there", "D")].
  split; [reflexivity|]. split.
  - split; [now exists "well ", " there" | cbn; lia].
  - repeat constructor.
    + intros [_ L]. cbn in L. lia.
    + intros [C _]. destruct (contains_find _ _ C) as [n F].
      vm_compute in F. discriminate F.
Defined.

Lemma typed_phrase_answered_witness :
  loopBody fresh_bot (terminal ["  HeLLo "])
  = (Continue,
     (push_history "hello" fresh_bot,
      botSay "Hi there! How can I help you today?"
        (prompted (terminal ["  HeLLo "]) []))).
Proof.
  assert (L : holds_lexicon fresh_bot) by (split; apply Permutation_refl).
  apply (proj1 (typed_phrase_answered fresh_bot (terminal ["  HeLLo "])
                  "  HeLLo " [] L eq_refl));
    [right; left; reflexivity | reflexivity].
Defined.

End MoreExamples.
